(** * PrettyPapers: the page restyling pipeline of [addimage.py]

    A shallow embedding of [int_to_rgb_float], [apply_blur_and_grain],
    [map_font] and [stylise_pdf], and the properties of the natural-language
    specification proved (or refuted) on it.

    Conventions of the embedding.
    - Python [int] is [Z]; [&] is [Z.land] and [>>] is [Z.shiftr], which agree
      with Python on negative numbers (infinite two's complement, flooring
      shift).
    - Python [float] is idealised as an exact rational [Q].  Every comparison
      the program makes on a float is against a constant, and the colour
      components are quotients [k / 255] with [0 <= k <= 255], for which the
      correctly rounded binary quotient and the exact one compare alike.
    - Python [str] is [string]; [str.lower] maps the ASCII capitals to their
      small letters and leaves every other character alone.
    - Fields whose run-time type the program inspects ([isinstance], [len])
      are values of the small universe [pyval]; the dictionaries handed out
      by the document model are records, with an [option] for every key the
      program reads through [dict.get].
    - The PDF library, the imaging library and the random source are outside
      the repository: they are interfaces (type classes) here, and every
      theorem holds for all their implementations. *)

From Stdlib Require Import ZArith QArith Qabs Qround Qminmax Lia Bool List.
From Stdlib Require Import Sorted.
From Stdlib Require Import Ascii String.
Import ListNotations.

Local Open Scope bool_scope.
Local Open Scope list_scope.

(* ================================================================== *)
(** * Helper functions of the program *)
(* ================================================================== *)

Module Color.

Local Open Scope Q_scope.

(** A colour as the program handles it: the tuple [(red, green, blue)]. *)
Definition RGB : Type := (Q * Q * Q)%type.

Definition white : RGB := (1, 1, 1).

Definition channels (c : RGB) : list Q :=
  let '(r, g, b) := c in [r; g; b].

(** [int_to_rgb_float(color_int)], lines 7-14.  [None] is Python's [None]. *)
Definition int_to_rgb_float (color_int : option Z) : RGB :=
  match color_int with
  | None => (1, 1, 1)
  | Some c =>
      let blue := inject_Z (Z.land c 255) / 255 in
      let green := inject_Z (Z.land (Z.shiftr c 8) 255) / 255 in
      let red := inject_Z (Z.land (Z.shiftr c 16) 255) / 255 in
      (red, green, blue)
  end.

(** The byte of weight [256 ^ i] of an integer, arithmetically. *)
Definition byte_at (c : Z) (i : Z) : Z := ((c / 256 ^ i) mod 256)%Z.

(** [a > b] on floats. *)
Definition Qgtb (a b : Q) : bool := negb (Qle_bool a b).

(** Line 123: [epsilon = 5.0 / 255.0]. *)
Definition epsilon : Q := 5 / 255.

(** Line 124: [any(ch > epsilon for ch in orig_color)]. *)
Definition is_non_black (orig_color : RGB) : bool :=
  existsb (fun ch => Qgtb ch epsilon) (channels orig_color).

(** Lines 127-130: the colour a span is drawn with. *)
Definition choose_color (orig_color : RGB) : RGB :=
  if is_non_black orig_color then orig_color else (1, 1, 1).

(** Componentwise equality of colours as numbers. *)
Definition rgb_eq (c d : RGB) : Prop :=
  let '(r, g, b) := c in
  let '(r', g', b') := d in
  r == r' /\ g == g' /\ b == b'.

(** The specification's near-black test, in its own words: every channel
    is at most the tolerance 5/255. *)
Definition isNearBlack (c : RGB) : bool :=
  forallb (fun ch => Qle_bool ch (5 # 255)) (channels c).

End Color.

Module Font.

Local Open Scope string_scope.

(** [str.lower] on one character. *)
Definition lower_ascii (c : ascii) : ascii :=
  let n := nat_of_ascii c in
  if (65 <=? n)%nat && (n <=? 90)%nat then ascii_of_nat (n + 32) else c.

Fixpoint lower (s : string) : string :=
  match s with
  | EmptyString => EmptyString
  | String c t => String (lower_ascii c) (lower t)
  end.

(** Python's [sub in s] on strings: [sub] starts at some position of [s]. *)
Fixpoint contains (sub s : string) : bool :=
  prefix sub s ||
  match s with
  | EmptyString => false
  | String _ t => contains sub t
  end.

(** [map_font(pdf_font_name)], lines 26-35. *)
Definition map_font (pdf_font_name : string) : string :=
  let f := lower pdf_font_name in
  if contains "bold" f && (contains "italic" f || contains "oblique" f)
  then "Times-BoldItalic"
  else if contains "bold" f then "Times-Bold"
  else if contains "italic" f || contains "oblique" f then "Times-Italic"
  else "Times-Roman".

(** The four style buckets of the specification and the built-in font
    each one stands for. *)
Inductive Style := Regular | Bold | Italic | BoldItalic.

Definition builtin_font (b : Style) : string :=
  match b with
  | Regular => "Times-Roman"
  | Bold => "Times-Bold"
  | Italic => "Times-Italic"
  | BoldItalic => "Times-BoldItalic"
  end.

(** Case-insensitive substring match, as a property of the name: some
    substring of [s] equals [pat] up to the case of its letters. *)
Definition contains_ci (pat s : string) : Prop :=
  exists pre mid suf, s = pre ++ mid ++ suf /\ lower mid = lower pat.

(** The three tests of [map_font], read on the name itself. *)
Definition has_bold (name : string) : Prop := contains_ci "bold" name.

Definition has_slant (name : string) : Prop :=
  contains_ci "italic" name \/ contains_ci "oblique" name.

End Font.

(* ================================================================== *)
(** * Values, geometry and the collaborators' interfaces *)
(* ================================================================== *)

(** The Python values the program tells apart at run time. *)
#[warnings="-register-all"]
Inductive pyval : Type :=
| PyNone
| PyBool (b : bool)
| PyInt (z : Z)
| PyFloat (q : Q)
| PyStr (s : string)
| PyTuple (l : list pyval)
| PyList (l : list pyval).

(** [isinstance(v, (list, tuple))], together with the elements. *)
Definition as_sequence (v : pyval) : option (list pyval) :=
  match v with
  | PyTuple l | PyList l => Some l
  | _ => None
  end.

(** [isinstance(v, int)], together with the number; [bool] is a subclass of
    [int] in Python. *)
Definition as_int (v : pyval) : option Z :=
  match v with
  | PyInt z => Some z
  | PyBool b => Some (Z.b2z b)
  | _ => None
  end.

(** The number a value stands for in an order comparison with a float. *)
Definition as_number (v : pyval) : option Q :=
  match v with
  | PyInt z => Some (inject_Z z)
  | PyBool b => Some (inject_Z (Z.b2z b))
  | PyFloat q => Some q
  | _ => None
  end.

(** [typ == "..."] for a literal string. *)
Definition is_str (v : pyval) (s : string) : bool :=
  match v with
  | PyStr t => String.eqb t s
  | _ => false
  end.

(** A colour tuple as a Python value. *)
Definition rgb_tuple (c : Color.RGB) : pyval :=
  let '(r, g, b) := c in PyTuple [PyFloat r; PyFloat g; PyFloat b].

Record Point := mkPoint { pt_x : Q; pt_y : Q }.

Record Rect := mkRect { x0 : Q; y0 : Q; x1 : Q; y1 : Q }.

(** The exceptions that matter: the ones raised by the program's own
    indexing, by a library constructor, or by a library call. *)
Inductive exn :=
  IndexError | TypeError | ValueError | KeyError | OSError | LibraryError.

Inductive result (A : Type) :=
| Ok (a : A)
| Raise (e : exn).
Arguments Ok {A} a.
Arguments Raise {A} e.

(** The constructors of the PDF library on run-time values: [fitz.Point(v)]
    and [fitz.Rect(v)] raise on what they cannot read as a point or a
    rectangle ([None] below). *)
Class Fitz := {
  fitz_Point : pyval -> option Point;
  fitz_Rect : pyval -> option Rect
}.

(** A call made on the output page. *)
Inductive DrawOp :=
| InsertImage (rect : Rect) (stream : list Init.Byte.byte) (overlay : bool)
| DrawLine (p1 p2 : Point) (color width : pyval)
| DrawRect (rect : Rect) (color : pyval) (fill : option pyval) (width : pyval)
| DrawPolyline (points : list Point) (color width : pyval)
| DrawBezier (points : list Point) (color width : pyval)
| InsertTextbox (rect : Rect) (text fontname : string) (fontsize : Q)
    (color : Color.RGB) (rotate : Z) (align : Z)
| InsertText (point : Point) (text fontname : string) (fontsize : Q)
    (color : Color.RGB).

(** [fitz.TEXT_ALIGN_LEFT]. *)
Definition TEXT_ALIGN_LEFT : Z := 0.

(** The page canvas: which calls it carries out, the others raising without
    drawing anything. *)
Class Canvas := { accepts : DrawOp -> bool }.

(** The imaging library and the random source. *)
Class Imaging := {
  Image : Type;
  (** [(img.width, img.height)] *)
  im_size : Image -> Z * Z;
  (** [img.resize((w, h))]; [None] when it raises *)
  resize : Image -> Z * Z -> option Image;
  (** [img.filter(ImageFilter.GaussianBlur(radius))] *)
  gaussian_blur : Image -> Q -> Image;
  (** the state of numpy's global random generator *)
  Rng : Type;
  (** [np.random.normal(loc, scale, size)], the samples in row-major order *)
  random_normal : Rng -> Q -> Q -> Z * Z * Z -> list Q * Rng;
  (** [Image.fromarray(a, "RGB")] for an array of the given shape *)
  fromarray : Z * Z * Z -> list Z -> Image;
  (** [Image.blend(im1, im2, alpha)]; [None] when it raises *)
  blend : Image -> Image -> Q -> option Image;
  (** [img.save(buf, format="PNG"); buf.getvalue()] *)
  save_png : Image -> list Init.Byte.byte
}.

(** What the imaging library documents of these operations. *)
Class ImagingLaws `{Imaging} : Prop := {
  resize_size : forall im wh r, resize im wh = Some r -> im_size r = wh;
  blur_size : forall im radius, im_size (gaussian_blur im radius) = im_size im;
  fromarray_size : forall h w data, im_size (fromarray (h, w, 3%Z) data) = (w, h);
  blend_defined : forall a b alpha,
    im_size a = im_size b ->
    exists c, blend a b alpha = Some c /\ im_size c = im_size a;
  blend_zero : forall a b, im_size a = im_size b -> blend a b 0 = Some a;
  blend_one : forall a b, im_size a = im_size b -> blend a b 1 = Some b
}.

(* ================================================================== *)
(** * The background synthesiser *)
(* ================================================================== *)

Section Background.

Context `{Imaging}.

Local Open Scope Q_scope.

(** [int(x)] on a float: truncation towards zero. *)
Definition int_of_float (x : Q) : Z := Z.quot (Qnum x) (Zpos (Qden x)).

(** [a.clip(lo, hi)] on one element. *)
Definition clip (lo hi x : Q) : Q :=
  if Qle_bool x lo then lo else if Qle_bool hi x then hi else x.

(** [.clip(0, 255).astype(np.uint8)] on one sample. *)
Definition grain_sample (x : Q) : Z := int_of_float (clip 0 255 x).

(** The grain picture of lines 19-23 for a blurred image, and the random
    state after it. *)
Definition grain_image (blurred : Image) (rng : Rng) : Image * Rng :=
  let '(width, height) := im_size blurred in
  let '(samples, rng') := random_normal rng 128 30 (height, width, 3%Z) in
  let grain := map grain_sample samples in
  (fromarray (height, width, 3%Z) grain, rng').

(** [apply_blur_and_grain(pil_img, blur_radius, grain_strength)], lines
    16-24; [None] when [Image.blend] raises. *)
Definition apply_blur_and_grain (pil_img : Image) (blur_radius grain_strength : Q)
    (rng : Rng) : option Image * Rng :=
  let blurred := gaussian_blur pil_img blur_radius in
  let '(grain_img, rng') := grain_image blurred rng in
  (blend blurred grain_img grain_strength, rng').

(** The default arguments of line 16. *)
Definition default_blur_radius : Q := 10.
Definition default_grain_strength : Q := 0.20.

(** Line 48, [apply_blur_and_grain(bg.resize((int(w), int(h))))]: the
    background of a page of width [w] and height [h]. *)
Definition synthesize (bg : Image) (w h : Q) (grain_strength : Q) (rng : Rng)
    : option Image * Rng :=
  match resize bg (int_of_float w, int_of_float h) with
  | None => (None, rng)
  | Some resized =>
      apply_blur_and_grain resized default_blur_radius grain_strength rng
  end.

End Background.

(* ================================================================== *)
(** * What the document model hands out *)
(* ================================================================== *)

(** A span of [page.get_text("dict")]: the keys read with [span[...]] are
    fields, the keys read with [span.get] are optional. *)
Record Span := mkSpan {
  span_text : string;
  span_size : Q;
  span_font : string;
  span_color : option Z;
  span_origin : Q * Q;
  span_matrix : option (list Q);
  span_bbox : Rect
}.

Record Line := mkLine { line_spans : option (list Span) }.

Record Block := mkBlock {
  blk_type : option Z;
  blk_xref : option Z;
  blk_bbox : Rect;
  blk_lines : option (list Line)
}.

(** An entry of [page.get_drawings()]; an item is a sequence whose first
    element is the command tag and whose second is the point set. *)
Record Drawing := mkDrawing {
  d_color : option pyval;
  d_width : option pyval;
  d_linewidth : option pyval;
  d_items : list (list pyval)
}.

(** A link of [page.get_links()], with its ["from"] rectangle if it has
    one. *)
Record Link := mkLink { link_from : option Rect }.

Record Page := mkPage {
  page_rect : Rect;
  page_width : Q;
  page_height : Q;
  text_blocks : list Block;
  drawing_items : list Drawing;
  links : list Link
}.

(** The source document: its pages and [src.extract_image(xref)["image"]],
    [None] when that raises. *)
Record SrcDoc := mkSrcDoc {
  src_pages : list Page;
  extract_image : Z -> option (list Init.Byte.byte)
}.

(** A page of the output document: its size and the calls carried out on
    it, oldest first. *)
Record OutPage := mkOutPage {
  out_width : Q;
  out_height : Q;
  out_ops : list DrawOp
}.

(** Writing a document that has pages, [dst.save(out_path, ...)]: the
    exception the library or the file system raises, [None] when the file
    is written. *)
Class Store := { save_error : list OutPage -> option exn }.

(* ================================================================== *)
(** * Calls on the page, and exceptions *)
(* ================================================================== *)

(** A piece of the page loop: the calls it carried out on the page, and
    whether it ended normally or raised. *)
Definition M (A : Type) : Type := (list DrawOp * result A)%type.

Definition ret {A} (a : A) : M A := ([], Ok a).

Definition raise {A} (e : exn) : M A := ([], Raise e).

Definition bind {A B} (m : M A) (f : A -> M B) : M B :=
  match m with
  | (ops, Ok a) => let '(ops', r) := f a in (ops ++ ops', r)
  | (ops, Raise e) => (ops, Raise e)
  end.

Notation "x <- m ;; k" := (bind m (fun x => k))
  (at level 61, m at next level, right associativity).
Notation "m ;;; k" := (bind m (fun _ => k))
  (at level 61, right associativity).

(** A library constructor that raises where it has no value. *)
Definition construct {A} (o : option A) : M A :=
  match o with
  | Some a => ret a
  | None => raise ValueError
  end.

(** A call on the page. *)
Definition emit `{Canvas} (op : DrawOp) : M unit :=
  if accepts op then ([op], Ok tt) else ([], Raise LibraryError).

(** [try: m  except Exception: pass]. *)
Definition try_pass (m : M unit) : M unit := (fst m, Ok tt).

(** [for x in l: f(x)]. *)
Fixpoint for_each {A} (f : A -> M unit) (l : list A) : M unit :=
  match l with
  | [] => ret tt
  | x :: t => f x ;;; for_each f t
  end.

(** [[f(x) for x in l]]. *)
Fixpoint comprehension {A B} (f : A -> M B) (l : list A) : M (list B) :=
  match l with
  | [] => ret []
  | x :: t => y <- f x ;; ys <- comprehension f t ;; ret (y :: ys)
  end.

Definition ops_of {A} (m : M A) : list DrawOp := fst m.
Definition outcome_of {A} (m : M A) : result A := snd m.

(* ================================================================== *)
(** * The main transform, [stylise_pdf] *)
(* ================================================================== *)

Section Stylise.

Context `{Fitz} `{Canvas} `{Imaging}.

Local Open Scope Q_scope.

(** Lines 48-51: the background, inserted with [overlay=False]. *)
Definition background_phase (bg : Image) (page : Page) (rng : Rng)
    : M unit * Rng :=
  let w := page_width page in
  let h := page_height page in
  match synthesize bg w h default_grain_strength rng with
  | (None, rng') => (raise ValueError, rng')
  | (Some bg_resized, rng') =>
      (emit (InsertImage (page_rect page) (save_png bg_resized) false), rng')
  end.

(** Lines 59-68, the body of the loop over the blocks; [not xref] holds of
    a missing handle, of [None] and of zero. *)
Definition image_block (src : SrcDoc) (b : Block) : M unit :=
  match blk_type b with
  | Some 1%Z =>
      match blk_xref b with
      | None => ret tt
      | Some xref =>
          if Z.eqb xref 0 then ret tt
          else
            match extract_image src xref with
            | None => raise ValueError
            | Some image => emit (InsertImage (blk_bbox b) image true)
            end
      end
  | _ => ret tt
  end.

Definition image_phase (src : SrcDoc) (blocks : list Block) : M unit :=
  for_each (image_block src) blocks.

(** Lines 73-81: the colour of a drawing. *)
Definition resolve_color (color_val : pyval) : pyval :=
  match color_val with
  | PyNone => rgb_tuple (1, 1, 1)
  | PyTuple l | PyList l => PyTuple l
  | PyInt z => rgb_tuple (Color.int_to_rgb_float (Some z))
  | PyBool b => rgb_tuple (Color.int_to_rgb_float (Some (Z.b2z b)))
  | _ => rgb_tuple (1, 1, 1)
  end.

(** [d.get(key)]: [None] for a missing key. *)
Definition get_or_none (field : option pyval) : pyval :=
  match field with
  | Some v => v
  | None => PyNone
  end.

(** [d.get(key, default)]. *)
Definition get_or (field : option pyval) (default : pyval) : pyval :=
  match field with
  | Some v => v
  | None => default
  end.

Definition color_of (d : Drawing) : pyval :=
  resolve_color (get_or_none (d_color d)).

(** Line 82: [d.get("width", d.get("linewidth", 1.0))]. *)
Definition width_of (d : Drawing) : pyval :=
  get_or (d_width d) (get_or (d_linewidth d) (PyFloat 1.0)).

(** [max(0.5, w)]: [w] when [w > 0.5], else [0.5]; the comparison raises
    for a [w] that is no number. *)
Definition max_half (w : pyval) : M pyval :=
  match as_number w with
  | Some q => ret (if Color.Qgtb q 0.5 then w else PyFloat 0.5)
  | None => raise TypeError
  end.

(** Lines 84-85. *)
Definition item_typ (item : list pyval) : pyval :=
  match item with
  | typ :: _ => typ
  | [] => PyNone
  end.

Definition item_pts (item : list pyval) : pyval :=
  match item with
  | _ :: pts :: _ => pts
  | _ => PyList []
  end.

(** [len(v)] and [v[i]] for a list or tuple [v]. *)
Definition py_len (v : pyval) : nat :=
  match as_sequence v with
  | Some l => List.length l
  | None => O
  end.

Definition py_index (v : pyval) (i : nat) : M pyval :=
  match as_sequence v with
  | Some l =>
      match nth_error l i with
      | Some x => ret x
      | None => raise IndexError
      end
  | None => raise TypeError
  end.

Definition is_sequence (v : pyval) : bool :=
  match as_sequence v with
  | Some _ => true
  | None => false
  end.

(** [[fitz.Point(p) for p in pts]]. *)
Definition points_of (pts : pyval) : M (list Point) :=
  match as_sequence pts with
  | Some l => comprehension (fun p => construct (fitz_Point p)) l
  | None => raise TypeError
  end.

(** Lines 84-107, the body of the loop over the items of a drawing. *)
Definition draw_item (draw_color draw_width : pyval) (item : list pyval)
    : M unit :=
  let typ := item_typ item in
  let pts := item_pts item in
  if (is_str typ "l" || is_str typ "L") && is_sequence pts
     && (2 <=? py_len pts)%nat then
    a <- py_index pts 0 ;;
    p1 <- construct (fitz_Point a) ;;
    b <- py_index pts 1 ;;
    p2 <- construct (fitz_Point b) ;;
    emit (DrawLine p1 p2 draw_color draw_width)
  else if is_str typ "re" && is_sequence pts then
    try_pass (
      rect <- construct (fitz_Rect pts) ;;
      width <- max_half draw_width ;;
      emit (DrawRect rect draw_color None width))
  else if (is_str typ "qu" || is_str typ "p") && is_sequence pts then
    try_pass (
      pts_list <- points_of pts ;;
      emit (DrawPolyline pts_list draw_color draw_width))
  else if (is_str typ "c" || is_str typ "be" || is_str typ "b")
          && is_sequence pts then
    try_pass (
      pts_list <- points_of pts ;;
      emit (DrawBezier pts_list draw_color draw_width))
  else ret tt.

(** Lines 71-107, the body of the loop over the drawings. *)
Definition draw_drawing (d : Drawing) : M unit :=
  for_each (draw_item (color_of d) (width_of d)) (d_items d).

Definition vector_phase (drawings : list Drawing) : M unit :=
  for_each draw_drawing drawings.

(** Line 110: the rectangles of the links; nothing is drawn from them. *)
Definition page_links (page : Page) : list Rect :=
  flat_map (fun lk => match link_from lk with Some r => [r] | None => [] end)
    (links page).

(** Line 120: [int_to_rgb_float(span.get("color", 0))]. *)
Definition orig_color (span : Span) : Color.RGB :=
  Color.int_to_rgb_float
    (Some (match span_color span with Some c => c | None => 0%Z end)).

(** Lines 123-130. *)
Definition render_color (span : Span) : Color.RGB :=
  Color.choose_color (orig_color span).

(** Line 134: [span.get("matrix", [1, 0, 0, 1, 0, 0])]. *)
Definition matrix_of (span : Span) : list Q :=
  match span_matrix span with
  | Some m => m
  | None => [1; 0; 0; 1; 0; 0]
  end.

(** Line 133: the point made of the two coordinates of [span["origin"]]. *)
Definition origin_point (span : Span) : Point :=
  mkPoint (fst (span_origin span)) (snd (span_origin span)).

(** Lines 116-150, the body of the loop over the spans. *)
Definition draw_span (span : Span) : M unit :=
  let text := span_text span in
  let size := span_size span in
  let font := Font.map_font (span_font span) in
  let color := render_color span in
  let origin := origin_point span in
  let matrix := matrix_of span in
  match nth_error matrix 1 with
  | None => raise IndexError
  | Some m1 =>
      if Color.Qgtb (Qabs m1) 1e-3 then
        let rect := span_bbox span in
        let angle := if Color.Qgtb m1 0 then 90%Z else (-90)%Z in
        emit (InsertTextbox rect text font size color angle TEXT_ALIGN_LEFT)
      else
        emit (InsertText origin text font size color)
  end.

Definition get_list {A} (field : option (list A)) : list A :=
  match field with
  | Some l => l
  | None => []
  end.

Definition text_phase (blocks : list Block) : M unit :=
  for_each (fun blk =>
    for_each (fun line =>
      for_each draw_span (get_list (line_spans line)))
      (get_list (blk_lines blk)))
    blocks.

(** Lines 44-150: one turn of the loop over the pages, after [new_page].
    Line 110 only collects [page_links] and makes no call. *)
Definition stylise_page (src : SrcDoc) (bg : Image) (page : Page) (rng : Rng)
    : M unit * Rng :=
  let '(background, rng') := background_phase bg page rng in
  (background ;;;
   image_phase src (text_blocks page) ;;;
   vector_phase (drawing_items page) ;;;
   text_phase (text_blocks page),
   rng').

(** The state of a run: the pages of the output document in memory, what
    [dst.save] has written (one entry for each call), how the run ended, and
    the random state. *)
Record Run := mkRun {
  dst : list OutPage;
  saved : list (list OutPage);
  outcome : result unit;
  rng_after : Rng
}.

(** Lines 43-150: the loop over the pages still to do. *)
Fixpoint page_loop (src : SrcDoc) (bg : Image) (todo : list Page)
    (dst : list OutPage) (rng : Rng) : list OutPage * result unit * Rng :=
  match todo with
  | [] => (dst, Ok tt, rng)
  | page :: rest =>
      let w := page_width page in
      let h := page_height page in
      let '((ops, r), rng') := stylise_page src bg page rng in
      let dst' := dst ++ [mkOutPage w h ops] in
      match r with
      | Ok _ => page_loop src bg rest dst' rng'
      | Raise e => (dst', Raise e, rng')
      end
  end.

Context `{Store}.

(** Line 152, [dst.save(out_path, ...)]: the library raises [ValueError]
    for a document without pages; for a document with pages the store says
    whether the file is written. *)
Definition save (dst : list OutPage) : result unit :=
  match dst with
  | [] => Raise ValueError
  | _ :: _ =>
      match save_error dst with
      | None => Ok tt
      | Some e => Raise e
      end
  end.

(** [stylise_pdf], lines 38-152, for an opened source and cover image. *)
Definition stylise_pdf (src : SrcDoc) (bg : Image) (rng : Rng) : Run :=
  match page_loop src bg (src_pages src) [] rng with
  | (dst, Ok _, rng') =>
      match save dst with
      | Ok _ => mkRun dst [dst] (Ok tt) rng'
      | Raise e => mkRun dst [] (Raise e) rng'
      end
  | (dst, Raise e, rng') => mkRun dst [] (Raise e) rng'
  end.

End Stylise.

(* ================================================================== *)
(** * The specification's reading of a stroke colour *)
(* ================================================================== *)

(** The specification's four cases, in its own words: an absent colour is
    white, an (r,g,b) triplet is used as it is, a packed integer is decoded,
    and any other representation is white. *)
Definition resolve_color_spec (color_val : pyval) : pyval :=
  match color_val with
  | PyNone => rgb_tuple (1, 1, 1)%Q
  | PyTuple [r; g; b] | PyList [r; g; b] => PyTuple [r; g; b]
  | PyInt z => rgb_tuple (Color.int_to_rgb_float (Some z))
  | _ => rgb_tuple (1, 1, 1)%Q
  end.

(* ================================================================== *)
(** * The calls the text and vector phases are expected to make *)
(* ================================================================== *)

(** Box-anchored, left-aligned text over the bounding box of the span,
    rotated by [angle] degrees. *)
Definition textbox_call (span : Span) (angle : Z) : DrawOp :=
  InsertTextbox (span_bbox span) (span_text span)
    (Font.map_font (span_font span)) (span_size span) (render_color span)
    angle TEXT_ALIGN_LEFT.

(** Horizontal text anchored at the origin of the span. *)
Definition text_call (span : Span) : DrawOp :=
  InsertText (origin_point span) (span_text span)
    (Font.map_font (span_font span)) (span_size span) (render_color span).

(** The value [v] is a number equal to [q]. *)
Definition number_is (v : pyval) (q : Q) : Prop :=
  exists q', as_number v = Some q' /\ (q' == q)%Q.

(** A path segment tagged as a rectangle. *)
Definition rect_tagged (item : list pyval) : Prop :=
  is_str (item_typ item) "re" = true.

(* ================================================================== *)
(** * The layers of a page *)
(* ================================================================== *)

Inductive Layer := Background | Raster | Vector | Text.

(** The layer a call draws on: an image inserted with [overlay=False] is
    the background, one inserted with [overlay=True] a raster image. *)
Definition layer_of (op : DrawOp) : Layer :=
  match op with
  | InsertImage _ _ false => Background
  | InsertImage _ _ true => Raster
  | DrawLine _ _ _ _ | DrawRect _ _ _ _
  | DrawPolyline _ _ _ | DrawBezier _ _ _ => Vector
  | InsertTextbox _ _ _ _ _ _ _ | InsertText _ _ _ _ _ => Text
  end.

Definition on_layer (l : Layer) (op : DrawOp) : Prop := layer_of op = l.

Definition page_size (p : Page) : Q * Q := (page_width p, page_height p).

Definition out_size (p : OutPage) : Q * Q := (out_width p, out_height p).

(* ================================================================== *)
(** * Sample collaborators, to run the program on *)
(* ================================================================== *)

Module Sample.

(** Constructors that read a sequence of two, or four, numbers. *)
Definition point_of_seq (v : pyval) : option Point :=
  match as_sequence v with
  | Some [a; b] =>
      match as_number a, as_number b with
      | Some x, Some y => Some (mkPoint x y)
      | _, _ => None
      end
  | _ => None
  end.

Definition rect_of_seq (v : pyval) : option Rect :=
  match as_sequence v with
  | Some [a; b; c; d] =>
      match as_number a, as_number b, as_number c, as_number d with
      | Some p, Some q, Some r, Some s => Some (mkRect p q r s)
      | _, _, _, _ => None
      end
  | _ => None
  end.

Definition fitz : Fitz :=
  {| fitz_Point := point_of_seq; fitz_Rect := rect_of_seq |}.

(** A canvas that carries out every call. *)
Definition canvas : Canvas := {| accepts := fun _ => true |}.

(** A store that writes every document that has pages. *)
Definition store : Store := {| save_error := fun _ => None |}.

(** Pictures as a size and a list of channel values. *)
Record Raster := mkRaster { r_width : Z; r_height : Z; r_data : list Z }.

Definition same_size (a b : Raster) : bool :=
  Z.eqb (r_width a) (r_width b) && Z.eqb (r_height a) (r_height b).

Definition mix (alpha : Q) (x y : Z) : Z :=
  Qfloor (inject_Z x + alpha * (inject_Z y - inject_Z x))%Q.

Definition imaging : Imaging :=
  {| Image := Raster;
     im_size := fun im => (r_width im, r_height im);
     resize := fun im wh =>
       if Z.ltb 0 (fst wh) && Z.ltb 0 (snd wh)
       then Some (mkRaster (fst wh) (snd wh)
                    (repeat 0%Z (Z.to_nat (fst wh * snd wh * 3))))
       else None;
     gaussian_blur := fun im _ => im;
     Rng := nat;
     random_normal := fun seed loc _ shape =>
       let '(h, w, c) := shape in
       (repeat loc (Z.to_nat (h * w * c)), S seed);
     fromarray := fun shape data =>
       let '(h, w, _) := shape in mkRaster w h data;
     blend := fun a b alpha =>
       if same_size a b then
         Some (if Qeq_bool alpha 0 then a
               else if Qeq_bool alpha 1 then b
               else mkRaster (r_width a) (r_height a)
                      (map (fun xy => mix alpha (fst xy) (snd xy))
                         (combine (r_data a) (r_data b))))
       else None;
     save_png := fun im => []
  |}.

Definition cover : Raster := mkRaster 2 1 [10; 20; 30; 40; 50; 60]%Z.

Definition horizontal_span : Span :=
  mkSpan "Hello" 12 "Helvetica" (Some 0%Z) (72, 100)%Q None
    (mkRect 72 88 110 102).

Definition span_with_shear (m1 : Q) : Span :=
  mkSpan "Side" 9 "Arial-Bold" (Some 0xCC1A1A%Z) (30, 400)%Q
    (Some [0; m1; - m1; 0; 30; 400]%Q) (mkRect 20 300 32 400).

Definition red : pyval := PyTuple [PyFloat 1; PyFloat 0; PyFloat 0].

Definition rect_item : list pyval :=
  [PyStr "re"; PyList [PyInt 10; PyInt 10; PyInt 50; PyInt 40]].

Definition bad_rect_item : list pyval :=
  [PyStr "re"; PyList [PyInt 10]].

Definition line_item : list pyval :=
  [PyStr "l"; PyList [PyTuple [PyInt 0; PyInt 0]; PyTuple [PyInt 5; PyInt 5]]].

Definition page1 : Page :=
  mkPage (mkRect 0 0 612.5 792) 612.5 792
    [ mkBlock (Some 0%Z) None (mkRect 72 88 110 102)
        (Some [mkLine (Some [horizontal_span])]);
      mkBlock (Some 1%Z) (Some 7%Z) (mkRect 100 200 300 400) None ]
    [ mkDrawing (Some red) None None [bad_rect_item; rect_item; line_item] ]
    [ mkLink None ].

Definition page2 : Page :=
  mkPage (mkRect 0 0 300 400) 300 400 [] [] [].

Definition document : SrcDoc :=
  mkSrcDoc [page1; page2]
    (fun xref => if Z.eqb xref 7 then Some [Init.Byte.x89; Init.Byte.x50] else None).

End Sample.

(* ================================================================== *)
(** * Vocabulary for further properties of the program *)
(* ================================================================== *)

(** The packed integer of three bytes, layout 0x00RRGGBB. *)
Definition pack_rgb (r g b : Z) : Z := (r * 65536 + g * 256 + b)%Z.

(** The built-in fonts [map_font] can return. *)
Definition times_fonts : list string :=
  ["Times-BoldItalic"; "Times-Bold"; "Times-Italic"; "Times-Roman"]%string.

(** The second test of [map_font]: "italic" or "oblique" is in the
    lower-case name. *)
Definition slant_found (name : string) : bool :=
  Font.contains "italic" (Font.lower name)
  || Font.contains "oblique" (Font.lower name).

(** The height of a layer in the stack of a page. *)
Definition layer_rank (l : Layer) : nat :=
  match l with
  | Background => 0
  | Raster => 1
  | Vector => 2
  | Text => 3
  end.

Definition rank_of (op : DrawOp) : nat := layer_rank (layer_of op).

(** No call is followed, anywhere later, by a call of a lower layer. *)
Definition layers_sorted (ops : list DrawOp) : Prop :=
  StronglySorted (fun a b => (rank_of a <= rank_of b)%nat) ops.

(** The stroke colour and width a vector call is made with. *)
Definition stroke_of (op : DrawOp) : option (pyval * pyval) :=
  match op with
  | DrawLine _ _ c w | DrawRect _ c _ w
  | DrawPolyline _ c w | DrawBezier _ c w => Some (c, w)
  | _ => None
  end.

(** A vector call made with the stroke of its drawing: the colour of the
    drawing, and its width, or for a rectangle no fill and a width that is a
    number not below 0.5. *)
Definition stroked_by (color width : pyval) (op : DrawOp) : Prop :=
  match op with
  | DrawRect _ c fill w =>
      c = color /\ fill = None /\
      exists q, as_number w = Some q /\ (0.5 <= q)%Q
  | DrawLine _ _ c w | DrawPolyline _ c w | DrawBezier _ c w =>
      c = color /\ w = width
  | _ => False
  end.

(** The text, the font and the colour a text call is made with. *)
Definition text_of (op : DrawOp) : option string :=
  match op with
  | InsertTextbox _ t _ _ _ _ _ | InsertText _ t _ _ _ => Some t
  | _ => None
  end.

Definition font_of (op : DrawOp) : option string :=
  match op with
  | InsertTextbox _ _ f _ _ _ _ | InsertText _ _ f _ _ => Some f
  | _ => None
  end.

Definition text_color_of (op : DrawOp) : option Color.RGB :=
  match op with
  | InsertTextbox _ _ _ _ c _ _ | InsertText _ _ _ _ c => Some c
  | _ => None
  end.

(** A text call as the text phase makes them: a built-in Times font, a
    colour that is not near-black, and for a textbox a quarter turn with
    left alignment. *)
Definition styled_text_call (op : DrawOp) : Prop :=
  match op with
  | InsertText _ _ f _ c =>
      In f times_fonts /\ Color.isNearBlack c = false
  | InsertTextbox _ _ f _ c angle align =>
      In f times_fonts /\ Color.isNearBlack c = false /\
      (angle = 90%Z \/ angle = (-90)%Z) /\ align = TEXT_ALIGN_LEFT
  | _ => False
  end.

(** The spans of the blocks of a page, in reading order. *)
Definition all_spans (blocks : list Block) : list Span :=
  flat_map (fun blk =>
    flat_map (fun line => get_list (line_spans line))
      (get_list (blk_lines blk)))
    blocks.

(** The matrix of the span has an entry of index 1. *)
Definition has_shear_entry (span : Span) : Prop :=
  (2 <= List.length (matrix_of span))%nat.

(** An image block with a handle: type 1 and an [xref] that is not zero. *)
Definition has_handle (b : Block) : bool :=
  match blk_type b, blk_xref b with
  | Some 1%Z, Some xref => negb (Z.eqb xref 0)
  | _, _ => false
  end.

(** The tags of the items the vector phase draws. *)
Definition line_tag (typ : pyval) : bool := is_str typ "l" || is_str typ "L".

Definition polyline_tag (typ : pyval) : bool :=
  is_str typ "qu" || is_str typ "p".

Definition bezier_tag (typ : pyval) : bool :=
  is_str typ "c" || is_str typ "be" || is_str typ "b".

Definition known_tag (typ : pyval) : bool :=
  line_tag typ || is_str typ "re" || polyline_tag typ || bezier_tag typ.

(** The elements of a list or tuple, none for any other value. *)
Definition elements (v : pyval) : list pyval :=
  match as_sequence v with
  | Some l => l
  | None => []
  end.

Section RunVocabulary.

Context `{Fitz} `{Canvas} `{Imaging}.

(** The output page [out] has the size of the source page [page] and holds
    the calls of one turn of the page loop on [page], which ended with
    [r]. *)
Definition page_run (src : SrcDoc) (bg : Image) (r : result unit)
    (out : OutPage) (page : Page) : Prop :=
  out_size out = page_size page /\
  exists rng, fst (stylise_page src bg page rng) = (out_ops out, r).

End RunVocabulary.

(** More samples to run the program on. *)
Module MoreSamples.

Definition long_line_item : list pyval :=
  [PyStr "L";
   PyTuple [PyList [PyInt 1; PyInt 2]; PyList [PyInt 3; PyInt 4];
            PyList [PyInt 5; PyInt 6]]].

Definition broken_line_item : list pyval :=
  [PyStr "l"; PyList [PyTuple [PyInt 0; PyInt 0]; PyStr "oops"]].

Definition polyline_item : list pyval :=
  [PyStr "qu";
   PyList [PyTuple [PyInt 0; PyInt 0]; PyTuple [PyInt 4; PyInt 0];
           PyTuple [PyInt 4; PyInt 3]]].

Definition broken_polyline_item : list pyval :=
  [PyStr "p"; PyList [PyTuple [PyInt 0; PyInt 0]; PyNone]].

Definition curve_item : list pyval :=
  [PyStr "c";
   PyList [PyTuple [PyInt 0; PyInt 0]; PyTuple [PyInt 1; PyInt 2];
           PyTuple [PyInt 3; PyInt 2]; PyTuple [PyInt 4; PyInt 0]]].

(** A canvas whose [draw_bezier] refuses a list of points. *)
Definition strict_canvas : Canvas :=
  {| accepts := fun op =>
       match op with
       | DrawBezier _ _ _ => false
       | _ => true
       end |}.

Definition object_item : list pyval := [PyStr "re"; PyStr "Rect(0, 0, 1, 1)"].

Definition unknown_item : list pyval := [PyStr "zz"; PyList []].

Definition short_matrix_span : Span :=
  mkSpan "x" 10 "Courier" None (0, 0)%Q (Some [1%Q]) (mkRect 0 0 1 1).

Definition lost_image_document : SrcDoc :=
  mkSrcDoc
    [Sample.page2;
     mkPage (mkRect 0 0 300 400) 300 400
       [mkBlock (Some 1%Z) (Some 9%Z) (mkRect 0 0 10 10) None] [] [];
     Sample.page1]
    (fun xref => if Z.eqb xref 7 then Some [Init.Byte.x89] else None).

(** The sample imaging library with a random source whose samples run
    through values below 0, inside 0..255 and above 255. *)
Definition noisy_imaging : Imaging :=
  {| Image := Sample.Raster;
     im_size := @im_size Sample.imaging;
     resize := @resize Sample.imaging;
     gaussian_blur := @gaussian_blur Sample.imaging;
     Rng := nat;
     random_normal := fun seed loc scale shape =>
       let '(h, w, c) := shape in
       (map (fun i =>
               nth (i mod 4)
                 [loc - 5 * scale; loc; loc + 0.7; loc + 5 * scale]%Q loc)
          (seq 0 (Z.to_nat (h * w * c))),
        S seed);
     fromarray := @fromarray Sample.imaging;
     blend := @blend Sample.imaging;
     save_png := @save_png Sample.imaging
  |}.

(** A store that cannot write any file. *)
Definition full_disk : Store := {| save_error := fun _ => Some OSError |}.

Definition tiny_page : Page :=
  mkPage (mkRect 0 0 0.5 10) 0.5 10 [] [] [].

Definition text_block : Block :=
  mkBlock (Some 0%Z) None (mkRect 72 88 110 102)
    (Some [mkLine (Some [Sample.horizontal_span; Sample.span_with_shear 0.5]);
           mkLine None]).

Definition lost_image_block : Block :=
  mkBlock (Some 1%Z) (Some 9%Z) (mkRect 0 0 10 10) None.

Definition no_handle_block : Block :=
  mkBlock (Some 1%Z) None (mkRect 0 0 10 10) None.

Definition lost_image_page : Page :=
  mkPage (mkRect 0 0 300 400) 300 400 [lost_image_block; text_block]
    [mkDrawing None None None [Sample.rect_item]] [].

End MoreSamples.

(* ================================================================== *)
(** * Properties of the colour codec *)
(* ================================================================== *)

Module ColorFacts.

Import Color.
Local Open Scope Q_scope.

Lemma land_255 (c : Z) : Z.land c 255 = (c mod 256)%Z.
Proof.
  change 255%Z with (Z.ones 8).
  rewrite Z.land_ones by lia. reflexivity.
Qed.

Lemma low_byte (c : Z) : Z.land c 255 = byte_at c 0.
Proof.
  unfold byte_at. rewrite land_255, Z.pow_0_r, Z.div_1_r. reflexivity.
Qed.

Lemma shifted_byte (c n : Z) :
  (0 <= n)%Z -> Z.land (Z.shiftr c (8 * n)) 255 = byte_at c n.
Proof.
  intros Hn. unfold byte_at.
  rewrite land_255, Z.shiftr_div_pow2 by lia.
  rewrite Z.pow_mul_r by lia. reflexivity.
Qed.

Lemma byte_at_range (c i : Z) : (0 <= byte_at c i <= 255)%Z.
Proof.
  unfold byte_at.
  pose proof (Z.mod_pos_bound (c / 256 ^ i) 256 ltac:(lia)). lia.
Qed.

Lemma channel_range (k : Z) :
  (0 <= k <= 255)%Z -> 0 <= inject_Z k / 255 /\ inject_Z k / 255 <= 1.
Proof.
  intros Hk. unfold Qdiv, Qmult, Qinv, Qle, inject_Z. simpl. lia.
Qed.

Lemma Qgtb_lt (a b : Q) : Qgtb a b = true <-> b < a.
Proof.
  unfold Qgtb. rewrite negb_true_iff.
  split.
  - intros Hb. apply Qnot_le_lt. intros Hle.
    apply Qle_bool_iff in Hle. congruence.
  - intros Hlt. destruct (Qle_bool a b) eqn:E; [|reflexivity].
    apply Qle_bool_iff in E. exfalso. exact (Qlt_not_le _ _ Hlt E).
Qed.

Lemma Qgtb_le (a b : Q) : Qgtb a b = false <-> a <= b.
Proof.
  unfold Qgtb. rewrite negb_false_iff. apply Qle_bool_iff.
Qed.

(** The specification's test says what its words say. *)
Lemma isNearBlack_iff (c : RGB) :
  isNearBlack c = true <-> forall ch, In ch (channels c) -> ch <= 5 / 255.
Proof.
  unfold isNearBlack. rewrite forallb_forall.
  split; intros Hall ch Hin.
  - apply Hall in Hin. apply Qle_bool_iff in Hin.
    eapply Qle_trans; [exact Hin|]. unfold Qle; simpl; lia.
  - apply Qle_bool_iff. eapply Qle_trans; [exact (Hall ch Hin)|].
    unfold Qle; simpl; lia.
Qed.

(** The program's test is the negation of the specification's. *)
Lemma is_non_black_isNearBlack (c : RGB) :
  is_non_black c = negb (isNearBlack c).
Proof.
  destruct c as [[r g] b]. unfold is_non_black, isNearBlack, channels.
  simpl. unfold Qgtb, epsilon. change (5 / 255) with (5 # 255).
  destruct (Qle_bool r (5 # 255)), (Qle_bool g (5 # 255)),
    (Qle_bool b (5 # 255)); reflexivity.
Qed.

Lemma choose_color_isNearBlack (c : RGB) :
  choose_color c = if isNearBlack c then (1, 1, 1) else c.
Proof.
  unfold choose_color. rewrite is_non_black_isNearBlack.
  destruct (isNearBlack c); reflexivity.
Qed.

(** C4: [int_to_rgb_float] is a total function with [None] decoded to
    white; for every integer [c] the blue, green and red channels are the
    low, second and third byte of [c], each divided by 255, hence in the
    interval from 0 to 1; and the three pure colours decode to the unit
    triples. *)
Theorem int_to_rgb_float_decodes :
  int_to_rgb_float None = (1, 1, 1) /\
  (forall c : Z,
     int_to_rgb_float (Some c) =
       (inject_Z (byte_at c 2) / 255,
        inject_Z (byte_at c 1) / 255,
        inject_Z (byte_at c 0) / 255) /\
     Forall (fun ch => 0 <= ch /\ ch <= 1)
       (channels (int_to_rgb_float (Some c)))) /\
  rgb_eq (int_to_rgb_float (Some 0x00FF0000%Z)) (1, 0, 0) /\
  rgb_eq (int_to_rgb_float (Some 0x0000FF00%Z)) (0, 1, 0) /\
  rgb_eq (int_to_rgb_float (Some 0x000000FF%Z)) (0, 0, 1).
Proof.
  split; [reflexivity|]. split.
  - intros c.
    assert (E : int_to_rgb_float (Some c) =
                (inject_Z (byte_at c 2) / 255,
                 inject_Z (byte_at c 1) / 255,
                 inject_Z (byte_at c 0) / 255)).
    { unfold int_to_rgb_float.
      pose proof (shifted_byte c 2 ltac:(lia)) as H2.
      pose proof (shifted_byte c 1 ltac:(lia)) as H1.
      change (8 * 2)%Z with 16%Z in H2. change (8 * 1)%Z with 8%Z in H1.
      rewrite H2, H1, low_byte. reflexivity. }
    split; [exact E|]. rewrite E. unfold channels.
    repeat constructor; apply channel_range, byte_at_range.
  - repeat split; reflexivity.
Qed.

End ColorFacts.

(* ================================================================== *)
(** * Properties of the text colour *)
(* ================================================================== *)

Module TextColorFacts.

Import Color ColorFacts.
Local Open Scope Q_scope.

Lemma some_channel_above_tolerance (c : RGB) :
  isNearBlack c = false -> exists ch, In ch (channels c) /\ 5 / 255 < ch.
Proof.
  intros Hnb. pose proof (is_non_black_isNearBlack c) as E.
  rewrite Hnb in E. simpl in E. unfold is_non_black in E.
  apply existsb_exists in E. destruct E as [ch [Hin Hgt]].
  exists ch. split; [exact Hin|]. apply Qgtb_lt in Hgt. exact Hgt.
Qed.

End TextColorFacts.

(* ================================================================== *)
(** * Properties of the font classifier *)
(* ================================================================== *)

Module FontFacts.

Import Font.
Local Open Scope string_scope.

Lemma prefix_iff (p s : string) :
  prefix p s = true <-> exists suf, s = p ++ suf.
Proof.
  revert s. induction p as [|a p IH]; intros s.
  - destruct s; simpl; split; intros _; try reflexivity; eexists; reflexivity.
  - destruct s as [|b s]; simpl.
    + split; [discriminate|]. intros [suf E]. discriminate.
    + destruct (ascii_dec a b) as [->|Hne].
      * rewrite IH. split; intros [suf E]; exists suf; congruence.
      * split; [discriminate|]. intros [suf E]. congruence.
Qed.

Lemma contains_iff (sub s : string) :
  contains sub s = true <-> exists pre suf, s = pre ++ sub ++ suf.
Proof.
  induction s as [|c s IH].
  - cbn [contains]. rewrite orb_false_r, prefix_iff. split.
    + intros [suf E]. exists "", suf. exact E.
    + intros [pre [suf E]]. destruct pre; [exists suf; exact E|discriminate].
  - cbn [contains]. rewrite orb_true_iff, prefix_iff, IH. split.
    + intros [[suf E]|[pre [suf E]]].
      * exists "", suf. exact E.
      * exists (String c pre), suf. simpl. congruence.
    + intros [pre [suf E]]. destruct pre as [|a pre].
      * left. exists suf. exact E.
      * right. exists pre, suf. simpl in E. congruence.
Qed.

Lemma lower_app (a b : string) : lower (a ++ b) = lower a ++ lower b.
Proof.
  induction a as [|c a IH]; simpl; [reflexivity|]. rewrite IH. reflexivity.
Qed.

Lemma lower_split (s a b : string) :
  lower s = a ++ b -> exists x y, s = x ++ y /\ lower x = a /\ lower y = b.
Proof.
  revert s. induction a as [|c a IH]; intros s E.
  - exists "", s. repeat split. exact E.
  - destruct s as [|d s]; [discriminate|]. simpl in E.
    injection E as Ec Es. destruct (IH s Es) as [x [y [-> [Hx Hy]]]].
    exists (String d x), y. simpl. repeat split; congruence.
Qed.

(** Lower-casing the name and searching for the lower-case pattern is the
    case-insensitive substring match. *)
Lemma contains_lower_ci (pat s : string) :
  contains (lower pat) (lower s) = true <-> contains_ci pat s.
Proof.
  rewrite contains_iff. unfold contains_ci. split.
  - intros [pre [suf E]].
    destruct (lower_split _ _ _ E) as [x [y [-> [_ Hy]]]].
    destruct (lower_split _ _ _ Hy) as [m [z [-> [Hm _]]]].
    exists x, m, z. split; [reflexivity|exact Hm].
  - intros [pre [mid [suf [-> Hm]]]].
    exists (lower pre), (lower suf). rewrite !lower_app, Hm. reflexivity.
Qed.

Lemma bold_test (name : string) :
  contains "bold" (lower name) = true <-> has_bold name.
Proof. exact (contains_lower_ci "bold" name). Qed.

Lemma slant_test (name : string) :
  contains "italic" (lower name) || contains "oblique" (lower name) = true
  <-> has_slant name.
Proof.
  rewrite orb_true_iff. unfold has_slant.
  rewrite <- (contains_lower_ci "italic"), <- (contains_lower_ci "oblique").
  reflexivity.
Qed.

Lemma map_font_cases (name : string) :
  map_font name =
    if contains "bold" (lower name)
    then if contains "italic" (lower name) || contains "oblique" (lower name)
         then builtin_font BoldItalic else builtin_font Bold
    else if contains "italic" (lower name) || contains "oblique" (lower name)
         then builtin_font Italic else builtin_font Regular.
Proof.
  unfold map_font; cbv zeta.
  destruct (contains "bold" (lower name));
    destruct (contains "italic" (lower name) || contains "oblique" (lower name));
    reflexivity.
Qed.

(** C5: [map_font] matches the family name case-insensitively on
    substrings and returns the built-in font of the bucket: BoldItalic for
    "bold" together with "italic" or "oblique", Bold for "bold" without
    them, Italic for "italic" or "oblique" without "bold", Regular for every
    other name; it is a total function.  The four names of the
    specification fall in the stated buckets. *)
Theorem map_font_classifies :
  (forall name : string,
     (has_bold name /\ has_slant name ->
      map_font name = builtin_font BoldItalic) /\
     (has_bold name /\ ~ has_slant name ->
      map_font name = builtin_font Bold) /\
     (~ has_bold name /\ has_slant name ->
      map_font name = builtin_font Italic) /\
     (~ has_bold name /\ ~ has_slant name ->
      map_font name = builtin_font Regular)) /\
  map_font "Arial-BoldOblique" = builtin_font BoldItalic /\
  map_font "Helvetica-Bold" = builtin_font Bold /\
  map_font "Foo-Italic" = builtin_font Italic /\
  map_font "Times New Roman" = builtin_font Regular.
Proof.
  split; [|repeat split; reflexivity].
  intros name. rewrite map_font_cases.
  pose proof (bold_test name) as Hb. pose proof (slant_test name) as Hs.
  destruct (contains "bold" (lower name));
    destruct (contains "italic" (lower name) || contains "oblique" (lower name));
    repeat split; intros [H1 H2]; try reflexivity; exfalso;
    first [ apply H1; apply Hb; reflexivity
          | apply H2; apply Hs; reflexivity
          | apply Hb in H1; discriminate
          | apply Hs in H2; discriminate ].
Qed.

(** The theorem at four names, in upper, lower and mixed case. *)
Lemma map_font_classifies_witness :
  map_font "ARIAL-BOLDITALIC" = builtin_font BoldItalic /\
  map_font "Helvetica-bOLd" = builtin_font Bold /\
  map_font "Courier-Oblique" = builtin_font Italic /\
  map_font "Symbol" = builtin_font Regular.
Proof.
  assert (ci : forall pat pre mid suf,
             lower mid = lower pat -> contains_ci pat (pre ++ mid ++ suf)).
  { intros pat pre mid suf E. exists pre, mid, suf. split; [reflexivity|exact E]. }
  assert (nci : forall pat s,
             contains (lower pat) (lower s) = false -> ~ contains_ci pat s).
  { intros pat s E Hc. apply contains_lower_ci in Hc. congruence. }
  split; [|split; [|split]].
  - apply (proj1 map_font_classifies "ARIAL-BOLDITALIC"). split.
    + exact (ci "bold" "ARIAL-" "BOLD" "ITALIC" eq_refl).
    + left. exact (ci "italic" "ARIAL-BOLD" "ITALIC" "" eq_refl).
  - apply (proj1 map_font_classifies "Helvetica-bOLd"). split.
    + exact (ci "bold" "Helvetica-" "bOLd" "" eq_refl).
    + intros [Hc|Hc]; revert Hc; apply nci; reflexivity.
  - apply (proj1 map_font_classifies "Courier-Oblique"). split.
    + apply nci; reflexivity.
    + right. exact (ci "oblique" "Courier-" "Oblique" "" eq_refl).
  - apply (proj1 map_font_classifies "Symbol"). split.
    + apply nci; reflexivity.
    + intros [Hc|Hc]; revert Hc; apply nci; reflexivity.
Defined.

End FontFacts.

(* ================================================================== *)
(** * Calls and exceptions: general facts *)
(* ================================================================== *)

Section MonadFacts.

Context `{Canvas}.

Lemma ops_bind {A B} (m : M A) (f : A -> M B) :
  ops_of (bind m f) =
    ops_of m ++ match outcome_of m with
                | Ok a => ops_of (f a)
                | Raise _ => []
                end.
Proof.
  destruct m as [ops [a|e]]; simpl.
  - destruct (f a); reflexivity.
  - rewrite app_nil_r. reflexivity.
Qed.

Lemma outcome_bind {A B} (m : M A) (f : A -> M B) :
  outcome_of (bind m f) =
    match outcome_of m with
    | Ok a => outcome_of (f a)
    | Raise e => Raise e
    end.
Proof.
  destruct m as [ops [a|e]]; simpl; [destruct (f a)|]; reflexivity.
Qed.

Lemma Forall_bind {A B} (P : DrawOp -> Prop) (m : M A) (f : A -> M B) :
  Forall P (ops_of m) -> (forall a, Forall P (ops_of (f a))) ->
  Forall P (ops_of (bind m f)).
Proof.
  intros Hm Hf. rewrite ops_bind. apply Forall_app. split; [exact Hm|].
  destruct (outcome_of m); [apply Hf|constructor].
Qed.

Lemma Forall_ret {A} (P : DrawOp -> Prop) (a : A) : Forall P (ops_of (ret a)).
Proof. constructor. Qed.

Lemma Forall_raise {A} (P : DrawOp -> Prop) (e : exn) :
  Forall P (ops_of (@raise A e)).
Proof. constructor. Qed.

Lemma Forall_construct {A} (P : DrawOp -> Prop) (o : option A) :
  Forall P (ops_of (construct o)).
Proof. destruct o; constructor. Qed.

Lemma Forall_emit (P : DrawOp -> Prop) (op : DrawOp) :
  P op -> Forall P (ops_of (emit op)).
Proof.
  intros Hop. unfold emit. destruct (accepts op); simpl; repeat constructor.
  exact Hop.
Qed.

Lemma ops_try_pass (m : M unit) : ops_of (try_pass m) = ops_of m.
Proof. reflexivity. Qed.

Lemma Forall_for_each {A} (P : DrawOp -> Prop) (f : A -> M unit) (l : list A) :
  (forall x, Forall P (ops_of (f x))) -> Forall P (ops_of (for_each f l)).
Proof.
  intros Hf. induction l as [|x t IH]; simpl.
  - constructor.
  - apply Forall_bind; [apply Hf|intros _; exact IH].
Qed.

Lemma Forall_comprehension {A B} (P : DrawOp -> Prop) (f : A -> M B)
    (l : list A) :
  (forall x, Forall P (ops_of (f x))) -> Forall P (ops_of (comprehension f l)).
Proof.
  intros Hf. induction l as [|x t IH]; simpl.
  - constructor.
  - apply Forall_bind; [apply Hf|intros y].
    apply Forall_bind; [exact IH|intros ys; constructor].
Qed.

Lemma outcome_try_pass (m : M unit) : outcome_of (try_pass m) = Ok tt.
Proof. reflexivity. Qed.

(** A loop whose every turn ends normally ends normally, with the calls of
    its turns one after the other. *)
Lemma for_each_cons {A} (f : A -> M unit) (x : A) (t : list A) :
  outcome_of (f x) = Ok tt ->
  for_each f (x :: t) =
    (ops_of (f x) ++ ops_of (for_each f t), outcome_of (for_each f t)).
Proof.
  intros Hx. simpl. destruct (f x) as [ops r]. simpl in Hx. subst r.
  simpl. destruct (for_each f t); reflexivity.
Qed.

End MonadFacts.

(** The calls of a composed piece all satisfy what each call made in it
    satisfies. *)
Ltac layers :=
  rewrite ?ops_try_pass;
  repeat first
    [ apply Forall_bind; [|intro]
    | apply Forall_emit; exact eq_refl
    | apply Forall_construct
    | apply Forall_ret
    | apply Forall_raise ].

(* ================================================================== *)
(** * The order of the layers on a page *)
(* ================================================================== *)

Section LayerFacts.

Context `{Fitz} `{Canvas} `{Imaging}.

Lemma image_block_layer (src : SrcDoc) (b : Block) :
  Forall (on_layer Raster) (ops_of (image_block src b)).
Proof.
  unfold image_block.
  destruct (blk_type b) as [[|[| |]|]|]; try (constructor; fail).
  destruct (blk_xref b) as [xref|]; [|constructor].
  destruct (Z.eqb xref 0); [constructor|].
  destruct (extract_image src xref); [|constructor].
  apply Forall_emit. reflexivity.
Qed.

Lemma image_phase_layer (src : SrcDoc) (blocks : list Block) :
  Forall (on_layer Raster) (ops_of (image_phase src blocks)).
Proof. apply Forall_for_each. apply image_block_layer. Qed.

Lemma py_index_no_ops (P : DrawOp -> Prop) (v : pyval) (i : nat) :
  Forall P (ops_of (py_index v i)).
Proof.
  unfold py_index. destruct (as_sequence v) as [l|]; [|constructor].
  destruct (nth_error l i); constructor.
Qed.

Lemma max_half_no_ops (P : DrawOp -> Prop) (w : pyval) :
  Forall P (ops_of (max_half w)).
Proof. unfold max_half. destruct (as_number w); constructor. Qed.

Lemma points_of_no_ops (P : DrawOp -> Prop) (pts : pyval) :
  Forall P (ops_of (points_of pts)).
Proof.
  unfold points_of. destruct (as_sequence pts); [|constructor].
  apply Forall_comprehension. intros p. apply Forall_construct.
Qed.

Lemma draw_item_layer (color width : pyval) (item : list pyval) :
  Forall (on_layer Vector) (ops_of (draw_item color width item)).
Proof.
  unfold draw_item; cbv zeta.
  repeat match goal with
         | |- context [if ?c then _ else _] => destruct c
         end;
    rewrite ?ops_try_pass;
    repeat first
      [ apply Forall_bind; [|intro]
      | apply Forall_emit; exact eq_refl
      | apply py_index_no_ops
      | apply max_half_no_ops
      | apply points_of_no_ops
      | apply Forall_construct
      | apply Forall_ret ].
Qed.

Lemma vector_phase_layer (drawings : list Drawing) :
  Forall (on_layer Vector) (ops_of (vector_phase drawings)).
Proof.
  apply Forall_for_each. intros d. apply Forall_for_each.
  apply draw_item_layer.
Qed.

Lemma draw_span_layer (span : Span) :
  Forall (on_layer Text) (ops_of (draw_span span)).
Proof.
  unfold draw_span; cbv zeta.
  destruct (nth_error (matrix_of span) 1) as [m1|]; [|constructor].
  destruct (Color.Qgtb (Qabs m1) 1e-3); layers.
Qed.

Lemma text_phase_layer (blocks : list Block) :
  Forall (on_layer Text) (ops_of (text_phase blocks)).
Proof.
  apply Forall_for_each. intros blk. apply Forall_for_each. intros line.
  apply Forall_for_each. apply draw_span_layer.
Qed.

(** The background phase makes its one call, or raises before any call. *)
Lemma background_phase_cases (bg : Image) (page : Page) (rng : Rng) :
  (exists stream,
     fst (background_phase bg page rng)
     = ([InsertImage (page_rect page) stream false], Ok tt)) \/
  (exists e, fst (background_phase bg page rng) = ([], Raise e)).
Proof.
  unfold background_phase; cbv zeta.
  destruct (synthesize _ _ _ _ _) as [[img|] rng']; simpl.
  - unfold emit. destruct (accepts _).
    + left. eexists. reflexivity.
    + right. eexists. reflexivity.
  - right. eexists. reflexivity.
Qed.

(** C1: whatever the page holds and in whatever order, the calls made on
    its output page are the background image, then raster image placements
    only, then vector primitives only, then text insertions only; a page
    that raises stops somewhere along this sequence, and a page that ends
    normally has made the background call and every call of the three
    phases. *)
Theorem page_layers_in_order :
  forall (src : SrcDoc) (bg : Image) (page : Page) (rng : Rng),
    let run := fst (stylise_page src bg page rng) in
    exists background images vectors texts,
      ops_of run = background ++ images ++ vectors ++ texts /\
      (background = [] \/
       exists stream,
         background = [InsertImage (page_rect page) stream false]) /\
      Forall (on_layer Raster) images /\
      Forall (on_layer Vector) vectors /\
      Forall (on_layer Text) texts /\
      match outcome_of run with
      | Ok _ =>
          Forall (on_layer Background) background /\
          List.length background = 1%nat /\
          images = ops_of (image_phase src (text_blocks page)) /\
          vectors = ops_of (vector_phase (drawing_items page)) /\
          texts = ops_of (text_phase (text_blocks page))
      | Raise _ => True
      end.
Proof.
  intros src bg page rng run. subst run. unfold stylise_page.
  pose proof (background_phase_cases bg page rng) as Hbg.
  destruct (background_phase bg page rng) as [background rng']. simpl in Hbg.
  pose proof (image_phase_layer src (text_blocks page)) as Hi.
  pose proof (vector_phase_layer (drawing_items page)) as Hv.
  pose proof (text_phase_layer (text_blocks page)) as Ht.
  cbn [fst]. rewrite !ops_bind, !outcome_bind.
  destruct Hbg as [[stream ->]|[e ->]]; cbn [ops_of outcome_of fst snd].
  2:{ exists [], [], [], []. repeat split; auto. }
  exists [InsertImage (page_rect page) stream false].
  destruct (image_phase src (text_blocks page)) as [iops [[]|ei]];
    cbn [ops_of outcome_of fst snd] in *.
  2:{ exists iops, [], []. repeat split; eauto. }
  destruct (vector_phase (drawing_items page)) as [vops [[]|ev]];
    cbn [ops_of outcome_of fst snd] in *.
  2:{ exists iops, vops, []. repeat split; eauto. }
  exists iops, vops, (fst (text_phase (text_blocks page))).
  split; [reflexivity|]. split; [eauto|]. repeat (split; [assumption|]).
  destruct (outcome_of (text_phase (text_blocks page))); [|exact I].
  repeat split. repeat constructor.
Qed.

End LayerFacts.

(* ================================================================== *)
(** * Rotation detection in the text phase *)
(* ================================================================== *)

Section TextFacts.

Context `{Canvas}.

Import ColorFacts.
Local Open Scope Q_scope.

(** The one call a span makes, by the second entry of its matrix. *)
Lemma draw_span_call (span : Span) (m1 : Q) :
  nth_error (matrix_of span) 1 = Some m1 ->
  draw_span span =
    emit (if Color.Qgtb (Qabs m1) 1e-3
          then textbox_call span (if Color.Qgtb m1 0 then 90 else -90)
          else text_call span).
Proof.
  intros Hm. unfold draw_span; cbv zeta. rewrite Hm.
  destruct (Color.Qgtb (Qabs m1) 1e-3); reflexivity.
Qed.

(** The colour test of lines 123-130 on the three channels. *)
Lemma choose_color_channels (r g b : Q) :
  Color.choose_color (r, g, b) =
    if Qle_bool r (5 / 255) && Qle_bool g (5 / 255) && Qle_bool b (5 / 255)
    then (1, 1, 1) else (r, g, b).
Proof.
  rewrite choose_color_isNearBlack. unfold Color.isNearBlack, Color.channels.
  cbn [forallb]. change (5 / 255) with (5 # 255).
  rewrite andb_true_r, andb_assoc. reflexivity.
Qed.

(** C2: the colour a span is drawn with is decided by the near-black test
    with tolerance 5/255 on the decoding of its packed colour (0 when the
    span has none): white when the three channels are at most 5/255, the
    decoded colour itself otherwise, never a mixture; every call made for
    the span carries that colour.  A span of packed colour 0, or without a
    colour, is drawn white, a span of packed colour 0xCC1A1A keeps its
    decoded colour, the triple (0,0,0) is turned white and the triple
    (0.8,0.1,0.1) is kept. *)
Theorem render_color_decided_by_near_black :
  (forall span : Span,
     let c := match span_color span with Some c => c | None => 0%Z end in
     let '(r, g, b) := Color.int_to_rgb_float (Some c) in
     (r <= 5 / 255 /\ g <= 5 / 255 /\ b <= 5 / 255 /\
      render_color span = (1, 1, 1))
     \/
     ((5 / 255 < r \/ 5 / 255 < g \/ 5 / 255 < b) /\
      render_color span = (r, g, b))) /\
  (forall span : Span,
     Forall (fun op => text_color_of op = Some (render_color span))
       (ops_of (draw_span span))) /\
  (forall r g b : Q,
     Color.choose_color (r, g, b) =
       if Qle_bool r (5 / 255) && Qle_bool g (5 / 255) && Qle_bool b (5 / 255)
       then (1, 1, 1) else (r, g, b)) /\
  (forall text size font origin matrix bbox,
     render_color (mkSpan text size font (Some 0%Z) origin matrix bbox)
     = (1, 1, 1) /\
     render_color (mkSpan text size font None origin matrix bbox)
     = (1, 1, 1) /\
     render_color (mkSpan text size font (Some 0xCC1A1A%Z) origin matrix bbox)
     = (inject_Z 204 / 255, inject_Z 26 / 255, inject_Z 26 / 255)) /\
  Color.choose_color (0, 0, 0) = (1, 1, 1) /\
  Color.choose_color (0.8, 0.1, 0.1) = (0.8, 0.1, 0.1).
Proof.
  split; [|split; [|split; [exact choose_color_channels|]]].
  - intros span c.
    assert (E : render_color span
                = Color.choose_color (Color.int_to_rgb_float (Some c))).
    { reflexivity. }
    destruct (Color.int_to_rgb_float (Some c)) as [[r g] b].
    rewrite E, choose_color_channels.
    destruct (Qle_bool r (5 / 255)) eqn:Er;
      [destruct (Qle_bool g (5 / 255)) eqn:Eg;
         [destruct (Qle_bool b (5 / 255)) eqn:Eb|]|]; cbn [andb].
    + left. apply Qle_bool_iff in Er, Eg, Eb. repeat split; assumption.
    + right. split; [|reflexivity]. right. right.
      apply Qnot_le_lt. intros Hle. apply Qle_bool_iff in Hle. congruence.
    + right. split; [|reflexivity]. right. left.
      apply Qnot_le_lt. intros Hle. apply Qle_bool_iff in Hle. congruence.
    + right. split; [|reflexivity]. left.
      apply Qnot_le_lt. intros Hle. apply Qle_bool_iff in Hle. congruence.
  - intros span. unfold draw_span; cbv zeta.
    destruct (nth_error (matrix_of span) 1) as [m1|]; [|constructor].
    destruct (Color.Qgtb (Qabs m1) 1e-3); apply Forall_emit; reflexivity.
  - split; [|split; reflexivity].
    intros text size font origin matrix bbox. repeat split.
Qed.

(** C3: a span whose matrix entry of index 1 (of the identity when the
    span has no matrix) exceeds 1e-3 in absolute value is inserted as a
    left-aligned textbox over its bounding box, rotated by +90 degrees when
    the entry is positive and by -90 degrees when it is negative; otherwise
    it is inserted as horizontal text at the point of its origin, with its
    text, its size, its mapped font and its render colour.  The call is
    made on the canvas, which draws it or raises. *)
Theorem rotation_by_matrix_entry (span : Span) (m1 : Q) :
  nth_error
    (match span_matrix span with
     | Some m => m
     | None => [1; 0; 0; 1; 0; 0]
     end) 1 = Some m1 ->
  let font := Font.map_font (span_font span) in
  let box := fun angle : Z =>
    InsertTextbox (span_bbox span) (span_text span) font (span_size span)
      (render_color span) angle 0 in
  let horizontal :=
    InsertText (mkPoint (fst (span_origin span)) (snd (span_origin span)))
      (span_text span) font (span_size span) (render_color span) in
  let call := fun op : DrawOp =>
    if accepts op then ([op], Ok tt) else ([], Raise LibraryError) in
  TEXT_ALIGN_LEFT = 0%Z /\
  (1e-3 < Qabs m1 -> 0 < m1 -> draw_span span = call (box 90%Z)) /\
  (1e-3 < Qabs m1 -> m1 < 0 -> draw_span span = call (box (-90)%Z)) /\
  (Qabs m1 <= 1e-3 -> draw_span span = call horizontal).
Proof.
  intros Hm font box horizontal call.
  change (nth_error (matrix_of span) 1 = Some m1) in Hm.
  rewrite (draw_span_call span m1 Hm).
  split; [reflexivity|]. split; [|split].
  - intros Habs Hpos.
    apply Qgtb_lt in Habs. apply Qgtb_lt in Hpos.
    rewrite Habs, Hpos. reflexivity.
  - intros Habs Hneg.
    apply Qgtb_lt in Habs. rewrite Habs.
    assert (Hle : Color.Qgtb m1 0 = false).
    { apply Qgtb_le. apply Qlt_le_weak. exact Hneg. }
    rewrite Hle. reflexivity.
  - intros Hsmall. apply Qgtb_le in Hsmall. rewrite Hsmall. reflexivity.
Qed.

(** C10: a span without a matrix gets the identity matrix, whose entry of
    index 1 is zero, and is inserted as horizontal text at its origin
    point; the textbox call is not made. *)
Theorem span_without_matrix_is_horizontal (span : Span) :
  span_matrix span = None ->
  matrix_of span = [1; 0; 0; 1; 0; 0] /\
  nth_error (matrix_of span) 1 = Some 0 /\
  draw_span span = emit (text_call span) /\
  (forall angle, ~ In (textbox_call span angle) (ops_of (draw_span span))).
Proof.
  intros Hnone.
  assert (Hm : matrix_of span = [1; 0; 0; 1; 0; 0]).
  { unfold matrix_of. rewrite Hnone. reflexivity. }
  assert (H1 : nth_error (matrix_of span) 1 = Some 0).
  { rewrite Hm. reflexivity. }
  assert (Hd : draw_span span = emit (text_call span)).
  { rewrite (draw_span_call span 0 H1). reflexivity. }
  repeat split; try assumption.
  intros angle Hin. rewrite Hd in Hin. unfold emit in Hin.
  destruct (accepts (text_call span)); simpl in Hin; [|exact Hin].
  destruct Hin as [E|[]]. discriminate E.
Qed.

End TextFacts.

(** The three spans of the specification, shear 0.5, -0.5 and 0.0005, and
    a span without a matrix. *)
Lemma rotation_by_matrix_entry_witness :
  @draw_span Sample.canvas (Sample.span_with_shear 0.5)
    = ([InsertTextbox (mkRect 20 300 32 400) "Side" "Times-Bold" 9
          (204 # 255, 26 # 255, 26 # 255) 90 0], Ok tt) /\
  @draw_span Sample.canvas (Sample.span_with_shear (-0.5))
    = ([InsertTextbox (mkRect 20 300 32 400) "Side" "Times-Bold" 9
          (204 # 255, 26 # 255, 26 # 255) (-90) 0], Ok tt) /\
  @draw_span Sample.canvas (Sample.span_with_shear 0.0005)
    = ([InsertText (mkPoint 30 400) "Side" "Times-Bold" 9
          (204 # 255, 26 # 255, 26 # 255)], Ok tt) /\
  @draw_span Sample.canvas Sample.horizontal_span
    = ([InsertText (mkPoint 72 100) "Hello" "Times-Roman" 12 (1, 1, 1)],
       Ok tt).
Proof.
  split; [|split; [|split]].
  - apply (proj1 (proj2 (@rotation_by_matrix_entry Sample.canvas
                    (Sample.span_with_shear 0.5) 0.5 eq_refl)));
      reflexivity.
  - apply (proj1 (proj2 (proj2 (@rotation_by_matrix_entry Sample.canvas
                    (Sample.span_with_shear (-0.5)) (-0.5) eq_refl))));
      reflexivity.
  - apply (proj2 (proj2 (proj2 (@rotation_by_matrix_entry Sample.canvas
                    (Sample.span_with_shear 0.0005) 0.0005 eq_refl)))).
    discriminate.
  - apply (proj2 (proj2 (proj2 (@rotation_by_matrix_entry Sample.canvas
                    Sample.horizontal_span 0 eq_refl)))).
    discriminate.
Defined.

Lemma span_without_matrix_is_horizontal_witness :
  span_matrix Sample.horizontal_span = None /\
  @draw_span Sample.canvas Sample.horizontal_span
    = @emit Sample.canvas (text_call Sample.horizontal_span).
Proof.
  split; [reflexivity|].
  exact (proj1 (proj2 (proj2
    (@span_without_matrix_is_horizontal Sample.canvas Sample.horizontal_span
       eq_refl)))).
Defined.

(* ================================================================== *)
(** * The vector phase: stroke style and rectangle segments *)
(* ================================================================== *)

Section VectorFacts.

Context `{Fitz} `{Canvas}.

Import ColorFacts.
Local Open Scope Q_scope.

Lemma max_half_number (w : pyval) (q : Q) :
  as_number w = Some q ->
  max_half w = ret (if Color.Qgtb q 0.5 then w else PyFloat 0.5) /\
  number_is (if Color.Qgtb q 0.5 then w else PyFloat 0.5) (Qmax 0.5 q).
Proof.
  intros Hq. unfold max_half. rewrite Hq. split; [reflexivity|].
  destruct (Color.Qgtb q 0.5) eqn:E.
  - exists q. split; [exact Hq|]. symmetry. apply Q.max_r.
    apply Qlt_le_weak. apply Qgtb_lt. exact E.
  - exists 0.5. split; [reflexivity|]. symmetry. apply Q.max_l.
    apply Qgtb_le. exact E.
Qed.

(** What a rectangle-tagged item does, case by case. *)
Lemma for_each_all_ok {A} (f : A -> M unit) (l : list A) :
  Forall (fun x => outcome_of (f x) = Ok tt) l ->
  outcome_of (for_each f l) = Ok tt.
Proof.
  induction 1 as [|x t Hx _ IH]; [reflexivity|].
  rewrite (for_each_cons f x t Hx). exact IH.
Qed.

Lemma draw_rect_item (color width : pyval) (item : list pyval) :
  rect_tagged item ->
  draw_item color width item =
    if is_sequence (item_pts item) then
      try_pass (
        rect <- construct (fitz_Rect (item_pts item)) ;;
        w <- max_half width ;;
        emit (DrawRect rect color None w))
    else ret tt.
Proof.
  unfold rect_tagged. intros Htag. unfold draw_item; cbv zeta.
  destruct (item_typ item) as [| | | |s| |]; try discriminate Htag.
  simpl in Htag. apply String.eqb_eq in Htag. subst s.
  destruct (is_sequence (item_pts item)); reflexivity.
Qed.

(** C7, as the program has it: a rectangle-tagged segment draws one
    unfilled rectangle, with stroke width the maximum of 0.5 and the
    resolved width, exactly when its point set is a list or tuple from
    which the rectangle can be constructed, the resolved width is a number
    and the canvas carries out the call; in every other case (a point set
    that is no list or tuple, a construction that fails, a width that is no
    number, a call the canvas refuses) it draws nothing.  It never raises:
    the segments after it are processed, and a drawing made of such
    segments ends normally. *)
Theorem rect_segment_drawn_exactly_when
    (color width : pyval) (tail : list pyval) (rest : list (list pyval)) :
  let item := PyStr "re" :: tail in
  let pts := match tail with p :: _ => p | [] => PyList [] end in
  let drawn :=
    match pts with
    | PyTuple _ | PyList _ =>
        match fitz_Rect pts, as_number width with
        | Some rect, Some q =>
            let w := if Color.Qgtb q 0.5 then width else PyFloat 0.5 in
            if accepts (DrawRect rect color None w)
            then [DrawRect rect color None w]
            else []
        | _, _ => []
        end
    | _ => []
    end in
  draw_item color width item = (drawn, Ok tt) /\
  (forall q, as_number width = Some q ->
     number_is (if Color.Qgtb q 0.5 then width else PyFloat 0.5)
       (Qmax 0.5 q)) /\
  for_each (draw_item color width) (item :: rest) =
    (drawn ++ ops_of (for_each (draw_item color width) rest),
     outcome_of (for_each (draw_item color width) rest)) /\
  (Forall (fun it => exists t, it = PyStr "re" :: t) rest ->
   outcome_of (for_each (draw_item color width) (item :: rest)) = Ok tt).
Proof.
  intros item pts drawn.
  assert (Hany : forall it, rect_tagged it ->
            outcome_of (draw_item color width it) = Ok tt).
  { intros it Hit. rewrite (draw_rect_item color width it Hit).
    destruct (is_sequence (item_pts it)); reflexivity. }
  assert (Hitem : draw_item color width item = (drawn, Ok tt)).
  { rewrite (draw_rect_item color width item eq_refl).
    change (item_pts item) with pts. subst drawn. clearbody pts.
    destruct pts; try reflexivity;
      (cbn [is_sequence as_sequence]; unfold try_pass, construct, max_half;
       destruct (fitz_Rect _) as [rect|]; [|reflexivity];
       destruct (as_number width) as [q|]; [|reflexivity];
       cbn [bind ret fst app]; unfold emit;
       destruct (accepts _); reflexivity). }
  split; [exact Hitem|]. split.
  { intros q Hq. exact (proj2 (max_half_number width q Hq)). }
  assert (Hok : outcome_of (draw_item color width item) = Ok tt).
  { rewrite Hitem. reflexivity. }
  split.
  - rewrite (for_each_cons _ item rest Hok), Hitem. reflexivity.
  - intros Hrest. apply for_each_all_ok. constructor; [exact Hok|].
    revert Hrest. apply Forall_impl. intros it [t ->]. apply Hany. reflexivity.
Qed.

(** C6, as the program has it: the stroke colour is white for a missing
    or [None] colour, the elements themselves (as a tuple) for every tuple
    or list, the decoded colour for an integer, and white for every other
    value; the stroke width is the declared width when there is one, else
    the [linewidth] when there is one, else 1.0.  Both are total. *)
Theorem stroke_style_resolved (d : Drawing) :
  let color_val := get_or_none (d_color d) in
  (d_color d = None \/ d_color d = Some PyNone ->
   color_of d = rgb_tuple (1, 1, 1)) /\
  (forall l, as_sequence color_val = Some l -> color_of d = PyTuple l) /\
  (forall r g b,
     color_val = PyTuple [r; g; b] -> color_of d = PyTuple [r; g; b]) /\
  (forall z, as_int color_val = Some z ->
     color_of d = rgb_tuple (Color.int_to_rgb_float (Some z))) /\
  (color_val <> PyNone -> as_sequence color_val = None ->
   as_int color_val = None -> color_of d = rgb_tuple (1, 1, 1)) /\
  width_of d =
    match d_width d, d_linewidth d with
    | Some w, _ => w
    | None, Some lw => lw
    | None, None => PyFloat 1.0
    end.
Proof.
  intros color_val. unfold color_of. fold color_val.
  split; [|split; [|split; [|split; [|split]]]].
  - intros [E|E]; subst color_val; rewrite E; reflexivity.
  - intros l Hl. destruct color_val; try discriminate Hl;
      injection Hl as <-; reflexivity.
  - intros r g b E. rewrite E. reflexivity.
  - intros z Hz. destruct color_val; try discriminate Hz;
      injection Hz as <-; reflexivity.
  - intros _ Hs Hi. destruct color_val; try discriminate; reflexivity.
  - unfold width_of, get_or.
    destruct (d_width d), (d_linewidth d); reflexivity.
Qed.

End VectorFacts.

(** A rectangle of four numbers drawn with a width below 0.5 and with an
    integer width, then the segments that are skipped: a width that is
    [None], a point set of one number, a point set that is no list; and a
    drawing that goes on after a skipped segment. *)
Lemma rect_segment_drawn_exactly_when_witness :
  @draw_item Sample.fitz Sample.canvas Sample.red (PyFloat 0.25)
    Sample.rect_item
    = ([DrawRect (mkRect 10 10 50 40) Sample.red None (PyFloat 0.5)], Ok tt) /\
  @draw_item Sample.fitz Sample.canvas Sample.red (PyInt 2) Sample.rect_item
    = ([DrawRect (mkRect 10 10 50 40) Sample.red None (PyInt 2)], Ok tt) /\
  @draw_item Sample.fitz Sample.canvas Sample.red PyNone Sample.rect_item
    = ([], Ok tt) /\
  @draw_item Sample.fitz Sample.canvas Sample.red (PyFloat 0.25)
    Sample.bad_rect_item = ([], Ok tt) /\
  @draw_item Sample.fitz Sample.canvas Sample.red (PyFloat 0.25)
    MoreSamples.object_item = ([], Ok tt) /\
  @for_each _ (@draw_item Sample.fitz Sample.canvas Sample.red (PyFloat 0.25))
    [Sample.bad_rect_item; Sample.rect_item]
    = ([DrawRect (mkRect 10 10 50 40) Sample.red None (PyFloat 0.5)], Ok tt) /\
  outcome_of (@for_each _ (@draw_item Sample.fitz Sample.canvas Sample.red
                             PyNone)
                [Sample.rect_item; Sample.bad_rect_item]) = Ok tt.
Proof.
  split; [|split; [|split; [|split; [|split; [|split]]]]].
  - exact (proj1 (@rect_segment_drawn_exactly_when Sample.fitz Sample.canvas
             Sample.red (PyFloat 0.25)
             [PyList [PyInt 10; PyInt 10; PyInt 50; PyInt 40]] [])).
  - exact (proj1 (@rect_segment_drawn_exactly_when Sample.fitz Sample.canvas
             Sample.red (PyInt 2)
             [PyList [PyInt 10; PyInt 10; PyInt 50; PyInt 40]] [])).
  - exact (proj1 (@rect_segment_drawn_exactly_when Sample.fitz Sample.canvas
             Sample.red PyNone
             [PyList [PyInt 10; PyInt 10; PyInt 50; PyInt 40]] [])).
  - exact (proj1 (@rect_segment_drawn_exactly_when Sample.fitz Sample.canvas
             Sample.red (PyFloat 0.25) [PyList [PyInt 10]] [])).
  - exact (proj1 (@rect_segment_drawn_exactly_when Sample.fitz Sample.canvas
             Sample.red (PyFloat 0.25) [PyStr "Rect(0, 0, 1, 1)"] [])).
  - exact (proj1 (proj2 (proj2 (@rect_segment_drawn_exactly_when Sample.fitz
             Sample.canvas Sample.red (PyFloat 0.25) [PyList [PyInt 10]]
             [Sample.rect_item])))).
  - exact (proj2 (proj2 (proj2 (@rect_segment_drawn_exactly_when Sample.fitz
             Sample.canvas Sample.red PyNone
             [PyList [PyInt 10; PyInt 10; PyInt 50; PyInt 40]]
             [Sample.bad_rect_item])))
             (Forall_cons _ (ex_intro _ [PyList [PyInt 10]] eq_refl)
                (Forall_nil _))).
Defined.

(** C7 as the specification words it fails on a drawing whose width is
    [None]: the rectangle can be constructed from the four numbers of the
    segment, yet the comparison of line 92 raises inside the [try] and
    nothing is drawn. *)
Lemma rect_with_width_none_counterexample :
  let d := mkDrawing (Some Sample.red) (Some PyNone) None [Sample.rect_item] in
  rect_tagged Sample.rect_item /\
  @fitz_Rect Sample.fitz (item_pts Sample.rect_item)
    = Some (mkRect 10 10 50 40) /\
  width_of d = PyNone /\
  ops_of (@draw_drawing Sample.fitz Sample.canvas d) = [] /\
  ~ (exists w,
       ops_of (@draw_item Sample.fitz Sample.canvas (color_of d) (width_of d)
                 Sample.rect_item)
       = [DrawRect (mkRect 10 10 50 40) (color_of d) None w]).
Proof.
  cbv zeta. split; [reflexivity|]. split; [reflexivity|].
  split; [reflexivity|]. split; [reflexivity|].
  intros [w Hw]. discriminate Hw.
Qed.

Lemma stroke_style_resolved_witness :
  color_of (mkDrawing (Some (PyInt 0xFF0000)) None (Some (PyFloat 2)) [])
    = rgb_tuple (Color.int_to_rgb_float (Some 0xFF0000%Z)) /\
  color_of (mkDrawing None None None []) = rgb_tuple (1, 1, 1)%Q /\
  color_of (mkDrawing (Some (PyStr "red")) None None []) = rgb_tuple (1, 1, 1)%Q.
Proof.
  split; [|split].
  - exact (proj1 (proj2 (proj2 (proj2
      (stroke_style_resolved
         (mkDrawing (Some (PyInt 0xFF0000)) None (Some (PyFloat 2)) [])))))
      0xFF0000%Z eq_refl).
  - exact (proj1 (stroke_style_resolved (mkDrawing None None None []))
             (or_introl eq_refl)).
  - apply (proj1 (proj2 (proj2 (proj2 (proj2
      (stroke_style_resolved (mkDrawing (Some (PyStr "red")) None None []))))))).
    + discriminate.
    + reflexivity.
    + reflexivity.
Defined.

(** C6 as the specification words it fails on a colour given as a tuple of
    four components: it is none of absent, triplet and packed integer, so
    the specification's reading makes it white, while the program keeps the
    four components. *)
Lemma stroke_color_four_components_counterexample :
  let cmyk := PyTuple [PyFloat 0; PyFloat 0; PyFloat 0; PyFloat 1] in
  let d := mkDrawing (Some cmyk) None None [] in
  resolve_color_spec (get_or_none (d_color d)) = rgb_tuple (1, 1, 1)%Q /\
  color_of d = cmyk /\
  color_of d <> resolve_color_spec (get_or_none (d_color d)).
Proof.
  cbv zeta. split; [reflexivity|]. split; [reflexivity|]. discriminate.
Qed.

(* ================================================================== *)
(** * The output document *)
(* ================================================================== *)

Section DocumentFacts.

Context `{Fitz} `{Canvas} `{Imaging}.

(** The loop adds one output page, of the size of the source page, for
    each source page it reaches, in order; it reaches them all unless one
    raises. *)
Lemma page_loop_sizes (src : SrcDoc) (bg : Image) (todo : list Page) :
  forall (dst0 d : list OutPage) (rng rng' : Rng) (r : result unit),
    page_loop src bg todo dst0 rng = (d, r, rng') ->
    exists k,
      map out_size d = map out_size dst0 ++ firstn k (map page_size todo) /\
      match r with
      | Ok _ => k = List.length todo
      | Raise _ => True
      end.
Proof.
  induction todo as [|page rest IH]; intros dst0 d rng rng' r Hloop.
  - simpl in Hloop. injection Hloop as <- <- <-.
    exists O. simpl. rewrite app_nil_r. split; reflexivity.
  - simpl in Hloop.
    destruct (stylise_page src bg page rng) as [[ops [[]|e]] rng1].
    + destruct (IH _ _ _ _ _ Hloop) as [k [Hk Hr]].
      exists (S k). split.
      * rewrite Hk, map_app. simpl. rewrite <- app_assoc. reflexivity.
      * destruct r; [simpl; congruence|exact I].
    + injection Hloop as <- <- <-.
      exists 1%nat. split; [|exact I].
      rewrite map_app. reflexivity.
Qed.

(** When every turn of the page loop ends normally, so does the loop. *)
Lemma page_loop_ends_normally (src : SrcDoc) (bg : Image) (todo : list Page) :
  (forall page rng0, In page todo ->
     outcome_of (fst (stylise_page src bg page rng0)) = Ok tt) ->
  forall (dst0 : list OutPage) (rng : Rng),
    exists d rng', page_loop src bg todo dst0 rng = (d, Ok tt, rng').
Proof.
  induction todo as [|page rest IH]; intros Hall dst0 rng.
  - exists dst0, rng. reflexivity.
  - simpl. pose proof (Hall page rng (or_introl eq_refl)) as Hp.
    destruct (stylise_page src bg page rng) as [[ops r] rng1].
    simpl in Hp. subst r.
    apply IH. intros p rng0 Hin. apply Hall. right. exact Hin.
Qed.

Context `{Store}.

(** C9: the output document gets its pages one for each source page
    reached, in source order, each with the width and height of its source
    page; the document is written by at most one save, which holds a page
    for every source page, and the run ends normally exactly when that save
    was made.  When every turn of the page loop ends normally on a source
    with pages and the library writes the file, the run ends normally with
    one page for every source page and that single save.  On a source
    without pages the save of line 152 raises and nothing is written. *)
Theorem one_page_per_source_page_one_save :
  forall (src : SrcDoc) (bg : Image) (rng : Rng),
    let run := stylise_pdf src bg rng in
    let size_of_out := fun out : OutPage => (out_width out, out_height out) in
    let size_of_page := fun page : Page => (page_width page, page_height page) in
    (exists k,
       map size_of_out (dst run) = firstn k (map size_of_page (src_pages src))) /\
    (saved run = [] \/
     (saved run = [dst run] /\
      map size_of_out (dst run) = map size_of_page (src_pages src))) /\
    (outcome run = Ok tt <-> saved run = [dst run]) /\
    ((forall page rng0, In page (src_pages src) ->
        outcome_of (fst (stylise_page src bg page rng0)) = Ok tt) ->
     src_pages src <> [] ->
     (forall d, save_error d = None) ->
     outcome run = Ok tt /\
     saved run = [dst run] /\
     map size_of_out (dst run) = map size_of_page (src_pages src) /\
     List.length (dst run) = List.length (src_pages src)) /\
    (src_pages src = [] ->
     outcome run = Raise ValueError /\ saved run = [] /\ dst run = []).
Proof.
  intros src bg rng run size_of_out size_of_page. subst run.
  change size_of_out with out_size. change size_of_page with page_size.
  clear size_of_out size_of_page. unfold stylise_pdf.
  destruct (page_loop src bg (src_pages src) [] rng) as [[d r] rng'] eqn:E.
  destruct (page_loop_sizes _ _ _ _ _ _ _ _ E) as [k [Hk Hr]].
  simpl in Hk.
  destruct r as [[]|e].
  - assert (Hall : map out_size d = map page_size (src_pages src)).
    { rewrite Hk, Hr, <- (length_map page_size). apply firstn_all. }
    assert (Hlen : List.length d = List.length (src_pages src)).
    { rewrite <- (length_map out_size d), Hall. apply length_map. }
    destruct d as [|o d'].
    + cbn [save dst saved outcome].
      assert (Hnil : src_pages src = []).
      { destruct (src_pages src); [reflexivity|discriminate Hlen]. }
      split; [exists k; exact Hk|]. split; [left; reflexivity|].
      split; [split; discriminate|].
      split; [intros _ Hne; contradiction|].
      intros _. repeat split.
    + unfold save. destruct (save_error (o :: d')) as [e|] eqn:Hs;
        cbn [dst saved outcome].
      * split; [exists k; exact Hk|]. split; [left; reflexivity|].
        split; [split; discriminate|].
        split; [intros _ _ Hsave; rewrite Hsave in Hs; discriminate Hs|].
        intros Hnil. rewrite Hnil in Hlen. discriminate Hlen.
      * split; [exists k; exact Hk|].
        split; [right; split; [reflexivity|exact Hall]|].
        split; [split; reflexivity|].
        split; [intros _ _ _; repeat split; assumption|].
        intros Hnil. rewrite Hnil in Hlen. discriminate Hlen.
  - cbn [dst saved outcome].
    split; [exists k; exact Hk|]. split; [left; reflexivity|].
    split; [split; discriminate|].
    split.
    + intros Hpages _ _.
      destruct (page_loop_ends_normally src bg (src_pages src) Hpages [] rng)
        as [d2 [rng2 E2]].
      rewrite E2 in E. discriminate E.
    + intros Hnil. rewrite Hnil in E. discriminate E.
Qed.

End DocumentFacts.

(** The sample document, of two pages, is saved once with its two pages;
    a document without pages is not saved. *)
Lemma one_page_per_source_page_one_save_witness :
  let run := @stylise_pdf Sample.fitz Sample.canvas Sample.imaging
               Sample.store Sample.document Sample.cover O in
  let empty := @stylise_pdf Sample.fitz Sample.canvas Sample.imaging
                 Sample.store (mkSrcDoc [] (fun _ => None)) Sample.cover O in
  (outcome run = Ok tt /\
   saved run = [dst run] /\
   map (fun out => (out_width out, out_height out)) (dst run)
     = [(612.5, 792); (300, 400)]%Q /\
   List.length (dst run) = 2%nat) /\
  (outcome empty = Raise ValueError /\ saved empty = [] /\ dst empty = []).
Proof.
  split.
  - refine (proj1 (proj2 (proj2 (proj2
      (@one_page_per_source_page_one_save Sample.fitz Sample.canvas
         Sample.imaging Sample.store Sample.document Sample.cover O)))) _ _ _).
    + intros page rng0 [<-|[<-|[]]]; vm_compute; reflexivity.
    + discriminate.
    + reflexivity.
  - exact (proj2 (proj2 (proj2 (proj2
      (@one_page_per_source_page_one_save Sample.fitz Sample.canvas
         Sample.imaging Sample.store (mkSrcDoc [] (fun _ => None))
         Sample.cover O)))) eq_refl).
Defined.

(** The sample document runs to its end: two pages, one save. *)
Example sample_run_completes :
  let run := @stylise_pdf Sample.fitz Sample.canvas Sample.imaging
               Sample.store Sample.document Sample.cover O in
  outcome run = Ok tt /\
  map out_size (dst run) = [(612.5, 792); (300, 400)]%Q /\
  List.length (saved run) = 1%nat /\
  map layer_of (List.concat (map out_ops (dst run)))
    = [Background; Raster; Vector; Vector; Text; Background].
Proof. vm_compute. repeat split. Qed.

(* ================================================================== *)
(** * The synthesised background *)
(* ================================================================== *)

Section BackgroundFacts.

Context `{Imaging} `{!ImagingLaws}.

Local Open Scope Q_scope.

Lemma int_of_float_floor (x : Q) : 0 <= x -> int_of_float x = Qfloor x.
Proof.
  destruct x as [n d]. unfold Qle, int_of_float, Qfloor. simpl.
  intros Hn. apply Z.quot_div_nonneg; lia.
Qed.

Lemma grain_image_size (blurred : Image) (rng : Rng) :
  im_size (fst (grain_image blurred rng)) = im_size blurred.
Proof.
  unfold grain_image. destruct (im_size blurred) as [width height].
  destruct (random_normal rng 128 30 (height, width, 3%Z)) as [samples rng'].
  simpl. apply fromarray_size.
Qed.

Lemma blend_arguments (pil_img : Image) (radius strength : Q) (rng : Rng) :
  fst (apply_blur_and_grain pil_img radius strength rng) =
    blend (gaussian_blur pil_img radius)
      (fst (grain_image (gaussian_blur pil_img radius) rng)) strength.
Proof.
  unfold apply_blur_and_grain.
  destruct (grain_image (gaussian_blur pil_img radius) rng). reflexivity.
Qed.

Lemma int_of_float_ceiling (x : Q) : x <= 0 -> int_of_float x = Qceiling x.
Proof.
  destruct x as [n d]. unfold Qle, int_of_float, Qceiling, Qfloor, Qopp.
  simpl. intros Hn.
  rewrite <- (Z.opp_involutive n) at 1.
  rewrite Z.quot_opp_l by lia. f_equal.
  apply Z.quot_div_nonneg; lia.
Qed.

Lemma grain_sample_floor (x : Q) :
  grain_sample x = Z.max 0 (Z.min 255 (Qfloor x)).
Proof.
  unfold grain_sample, clip.
  destruct (Qle_bool x 0) eqn:E0.
  - apply Qle_bool_iff in E0. apply Qfloor_resp_le in E0.
    change (Qfloor 0) with 0%Z in E0. change (int_of_float 0) with 0%Z. lia.
  - destruct (Qle_bool 255 x) eqn:E1.
    + apply Qle_bool_iff in E1. apply Qfloor_resp_le in E1.
      change (Qfloor 255) with 255%Z in E1.
      change (int_of_float 255) with 255%Z. lia.
    + assert (Hlo : 0 <= x).
      { apply Qlt_le_weak, Qnot_le_lt. intros Hle.
        apply Qle_bool_iff in Hle. congruence. }
      assert (Hhi : x <= 255).
      { apply Qlt_le_weak, Qnot_le_lt. intros Hle.
        apply Qle_bool_iff in Hle. congruence. }
      rewrite (int_of_float_floor x Hlo).
      apply Qfloor_resp_le in Hlo. apply Qfloor_resp_le in Hhi.
      change (Qfloor 0) with 0%Z in Hlo.
      change (Qfloor 255) with 255%Z in Hhi. lia.
Qed.

Context `{Canvas}.

(** C8: given what the imaging library documents of its operations.
    [apply_blur_and_grain] blends the blurred image with a grain picture of
    the same size, made of one array of normal samples (mean 128, deviation
    30, shape height by width by 3) each cut to 0..255 and floored, with
    the grain strength as weight: its result has the size of the image it
    is given, is the blurred image at strength 0 and the grain picture at
    strength 1.  The background of a page is made from the cover resized to
    the page's width and height truncated to integers, whatever the size of
    the cover, with blur radius 10; the page loop uses strength 0.20 and
    inserts the result over the page rectangle with [overlay=False]. *)
Theorem background_size_and_blend_endpoints :
  let quantise := fun x : Q => Z.max 0 (Z.min 255 (Qfloor x)) in
  let grain_of := fun (size : Z * Z) (rng : Rng) =>
    fromarray (snd size, fst size, 3%Z)
      (map quantise
         (fst (random_normal rng 128 30 (snd size, fst size, 3%Z)))) in
  (forall (pil_img : Image) (radius strength : Q) (rng : Rng),
     let blurred := gaussian_blur pil_img radius in
     let grain := grain_of (im_size pil_img) rng in
     apply_blur_and_grain pil_img radius strength rng
       = (blend blurred grain strength,
          snd (random_normal rng 128 30
                 (snd (im_size pil_img), fst (im_size pil_img), 3%Z))) /\
     im_size blurred = im_size pil_img /\
     im_size grain = im_size pil_img /\
     (exists out,
        fst (apply_blur_and_grain pil_img radius strength rng) = Some out /\
        im_size out = im_size pil_img) /\
     fst (apply_blur_and_grain pil_img radius 0 rng) = Some blurred /\
     fst (apply_blur_and_grain pil_img radius 1 rng) = Some grain) /\
  (forall (bg : Image) (w h strength : Q) (rng : Rng),
     let size := (int_of_float w, int_of_float h) in
     match resize bg size with
     | Some resized =>
         synthesize bg w h strength rng
           = apply_blur_and_grain resized 10 strength rng /\
         (exists out,
            fst (synthesize bg w h strength rng) = Some out /\
            im_size out = size) /\
         fst (synthesize bg w h 0 rng) = Some (gaussian_blur resized 10) /\
         fst (synthesize bg w h 1 rng) = Some (grain_of size rng)
     | None => synthesize bg w h strength rng = (None, rng)
     end) /\
  (forall (bg : Image) (page : Page) (rng : Rng),
     fst (background_phase bg page rng) =
       match fst (synthesize bg (page_width page) (page_height page) 0.20 rng)
       with
       | Some out =>
           let op := InsertImage (page_rect page) (save_png out) false in
           if accepts op then ([op], Ok tt) else ([], Raise LibraryError)
       | None => ([], Raise ValueError)
       end) /\
  (forall x : Q,
     (0 <= x -> inject_Z (int_of_float x) <= x /\
                x < inject_Z (int_of_float x + 1)) /\
     (x <= 0 -> x <= inject_Z (int_of_float x) /\
                inject_Z (int_of_float x - 1) < x)).
Proof.
  intros quantise grain_of.
  assert (Hblend : forall pil_img radius strength rng,
    let blurred := gaussian_blur pil_img radius in
    let grain := grain_of (im_size pil_img) rng in
    apply_blur_and_grain pil_img radius strength rng
      = (blend blurred grain strength,
         snd (random_normal rng 128 30
                (snd (im_size pil_img), fst (im_size pil_img), 3%Z))) /\
    im_size blurred = im_size pil_img /\
    im_size grain = im_size pil_img).
  { intros pil_img radius strength rng blurred grain. subst blurred grain.
    pose proof (blur_size pil_img radius) as Eb.
    unfold apply_blur_and_grain, grain_image, grain_of. rewrite Eb.
    destruct (im_size pil_img) as [wd ht]. cbn [fst snd].
    destruct (random_normal rng 128 30 (ht, wd, 3%Z)) as [samples rng'].
    cbn [fst snd].
    rewrite (map_ext grain_sample quantise grain_sample_floor).
    split; [reflexivity|]. split; [reflexivity|]. apply fromarray_size. }
  assert (Happly : forall (pil_img : Image) (radius strength : Q) (rng : Rng),
     let blurred := gaussian_blur pil_img radius in
     let grain := grain_of (im_size pil_img) rng in
     apply_blur_and_grain pil_img radius strength rng
       = (blend blurred grain strength,
          snd (random_normal rng 128 30
                 (snd (im_size pil_img), fst (im_size pil_img), 3%Z))) /\
     im_size blurred = im_size pil_img /\
     im_size grain = im_size pil_img /\
     (exists out,
        fst (apply_blur_and_grain pil_img radius strength rng) = Some out /\
        im_size out = im_size pil_img) /\
     fst (apply_blur_and_grain pil_img radius 0 rng) = Some blurred /\
     fst (apply_blur_and_grain pil_img radius 1 rng) = Some grain).
  { intros pil_img radius strength rng blurred grain.
    destruct (Hblend pil_img radius strength rng) as [E [Sb Sg]].
    fold blurred grain in E, Sb, Sg.
    assert (Hsame : im_size blurred = im_size grain) by congruence.
    split; [exact E|]. split; [exact Sb|]. split; [exact Sg|]. split; [|split].
    - rewrite E. cbn [fst].
      destruct (blend_defined blurred grain strength Hsame) as [c [Hc Hs]].
      exists c. split; [exact Hc|]. congruence.
    - rewrite (proj1 (Hblend pil_img radius 0 rng)). cbn [fst].
      apply blend_zero. exact Hsame.
    - rewrite (proj1 (Hblend pil_img radius 1 rng)). cbn [fst].
      apply blend_one. exact Hsame. }
  split; [exact Happly|]. split; [|split].
  - intros bg w h strength rng size.
    destruct (resize bg size) as [resized|] eqn:Hres.
    + assert (Hsyn : forall s0, synthesize bg w h s0 rng
                       = apply_blur_and_grain resized 10 s0 rng).
      { intros s0. unfold synthesize. fold size. rewrite Hres. reflexivity. }
      pose proof (resize_size _ _ _ Hres) as Hsz.
      destruct (Happly resized 10 strength rng)
        as (_ & _ & _ & [out [Ho Hs]] & Hzero & Hone).
      split; [apply Hsyn|]. split; [|split].
      * exists out. rewrite Hsyn. split; [exact Ho|]. congruence.
      * rewrite Hsyn. exact Hzero.
      * rewrite Hsyn, Hone, Hsz. reflexivity.
    + unfold synthesize. fold size. rewrite Hres. reflexivity.
  - intros bg page rng. unfold background_phase; cbv zeta.
    change default_grain_strength with 0.20.
    destruct (synthesize bg (page_width page) (page_height page) 0.20 rng)
      as [[out|] rng']; reflexivity.
  - intros x. split; intros Hx.
    + rewrite (int_of_float_floor x Hx).
      split; [apply Qfloor_le|apply Qlt_floor].
    + rewrite (int_of_float_ceiling x Hx).
      split; [apply Qle_ceiling|apply Qceiling_lt].
Qed.

End BackgroundFacts.

Lemma sample_imaging_laws : @ImagingLaws Sample.imaging.
Proof.
  constructor.
  - intros im [w h] r. simpl.
    destruct (Z.ltb 0 w && Z.ltb 0 h); [|discriminate].
    intros E. injection E as <-. reflexivity.
  - reflexivity.
  - reflexivity.
  - intros [wa ha da] [wb hb db] alpha E. simpl in *.
    unfold Sample.same_size. simpl.
    injection E as -> ->. rewrite !Z.eqb_refl. simpl.
    eexists. split; [reflexivity|].
    destruct (Qeq_bool alpha 0); [reflexivity|].
    destruct (Qeq_bool alpha 1); reflexivity.
  - intros [wa ha da] [wb hb db] E. simpl in *.
    unfold Sample.same_size. simpl.
    injection E as -> ->. rewrite !Z.eqb_refl. reflexivity.
  - intros [wa ha da] [wb hb db] E. simpl in *.
    unfold Sample.same_size. simpl.
    injection E as -> ->. rewrite !Z.eqb_refl. reflexivity.
Qed.

Lemma noisy_imaging_laws : @ImagingLaws MoreSamples.noisy_imaging.
Proof.
  constructor.
  - exact (@resize_size _ sample_imaging_laws).
  - exact (@blur_size _ sample_imaging_laws).
  - exact (@fromarray_size _ sample_imaging_laws).
  - exact (@blend_defined _ sample_imaging_laws).
  - exact (@blend_zero _ sample_imaging_laws).
  - exact (@blend_one _ sample_imaging_laws).
Qed.

(** A cover of 2 by 1 pixels on a page of 2.5 by 1.2 points, with samples
    -22, 128, 128.7, 278, -22, 128: the grain picture at strength 1, the
    blurred picture at strength 0, the size at strength 0.20, the call of
    the page loop, and a page too narrow to resize the cover to. *)
Lemma background_size_and_blend_endpoints_witness :
  fst (@synthesize MoreSamples.noisy_imaging Sample.cover 2.5 1.2 1 O)
    = Some (Sample.mkRaster 2 1 [0; 128; 128; 255; 0; 128]%Z) /\
  fst (@synthesize MoreSamples.noisy_imaging Sample.cover 2.5 1.2 0 O)
    = Some (Sample.mkRaster 2 1 [0; 0; 0; 0; 0; 0]%Z) /\
  (exists out,
     fst (@synthesize MoreSamples.noisy_imaging Sample.cover 2.5 1.2 0.20 O)
       = Some out /\
     @im_size MoreSamples.noisy_imaging out = (2, 1)%Z) /\
  @synthesize MoreSamples.noisy_imaging Sample.cover 0.5 10 0.20 O
    = (None, O) /\
  fst (@background_phase Sample.canvas MoreSamples.noisy_imaging Sample.cover
         (mkPage (mkRect 0 0 2.5 1.2) 2.5 1.2 [] [] []) O)
    = ([InsertImage (mkRect 0 0 2.5 1.2) [] false], Ok tt).
Proof.
  pose proof (@background_size_and_blend_endpoints
                MoreSamples.noisy_imaging noisy_imaging_laws Sample.canvas)
    as T.
  cbv zeta in T. destruct T as (_ & Tsyn & Tbg & _).
  split; [|split; [|split; [|split]]].
  - exact (proj2 (proj2 (proj2 (Tsyn Sample.cover 2.5 1.2 1 O)))).
  - exact (proj1 (proj2 (proj2 (Tsyn Sample.cover 2.5 1.2 0 O)))).
  - exact (proj1 (proj2 (Tsyn Sample.cover 2.5 1.2 0.20 O))).
  - exact (Tsyn Sample.cover 0.5 10 0.20 O).
  - exact (Tbg Sample.cover (mkPage (mkRect 0 0 2.5 1.2) 2.5 1.2 [] [] []) O).
Defined.

(* ================================================================== *)
(** * Further properties of the colour codec and the text colour *)
(* ================================================================== *)

Module CodecMore.

Import Color ColorFacts.
Local Open Scope Q_scope.

Lemma decode_bytes (c : Z) :
  int_to_rgb_float (Some c) =
    (inject_Z (byte_at c 2) / 255,
     inject_Z (byte_at c 1) / 255,
     inject_Z (byte_at c 0) / 255).
Proof.
  unfold int_to_rgb_float.
  pose proof (shifted_byte c 2 ltac:(lia)) as H2.
  pose proof (shifted_byte c 1 ltac:(lia)) as H1.
  change (8 * 2)%Z with 16%Z in H2. change (8 * 1)%Z with 8%Z in H1.
  rewrite H2, H1, low_byte. reflexivity.
Qed.

Lemma byte_at_0 (c : Z) : byte_at c 0 = (c mod 256)%Z.
Proof. unfold byte_at. rewrite Z.pow_0_r, Z.div_1_r. reflexivity. Qed.

Lemma byte_at_1 (c : Z) : byte_at c 1 = ((c / 256) mod 256)%Z.
Proof. reflexivity. Qed.

Lemma byte_at_2 (c : Z) : byte_at c 2 = ((c / 65536) mod 256)%Z.
Proof. reflexivity. Qed.

(** The three low bytes do not see a multiple of 2^24. *)
Lemma bytes_of_shifted (c k : Z) :
  byte_at (c + k * 16777216)%Z 0 = byte_at c 0 /\
  byte_at (c + k * 16777216)%Z 1 = byte_at c 1 /\
  byte_at (c + k * 16777216)%Z 2 = byte_at c 2.
Proof.
  rewrite !byte_at_0, !byte_at_1, !byte_at_2.
  repeat split; Z.div_mod_to_equations; lia.
Qed.

(** The low 24 bits are the three bytes put together. *)
Lemma low_24_bits (c : Z) :
  (c mod 16777216)%Z = pack_rgb (byte_at c 2) (byte_at c 1) (byte_at c 0).
Proof.
  unfold pack_rgb. rewrite byte_at_0, byte_at_1, byte_at_2.
  Z.div_mod_to_equations. lia.
Qed.

Lemma bytes_of_pack (r g b : Z) :
  (0 <= r <= 255)%Z -> (0 <= g <= 255)%Z -> (0 <= b <= 255)%Z ->
  byte_at (pack_rgb r g b) 2 = r /\
  byte_at (pack_rgb r g b) 1 = g /\
  byte_at (pack_rgb r g b) 0 = b.
Proof.
  intros Hr Hg Hb. unfold pack_rgb.
  rewrite byte_at_0, byte_at_1, byte_at_2.
  repeat split; Z.div_mod_to_equations; lia.
Qed.

Lemma decode_shifted (c k : Z) :
  int_to_rgb_float (Some (c + k * 16777216)%Z) = int_to_rgb_float (Some c).
Proof.
  rewrite !decode_bytes.
  destruct (bytes_of_shifted c k) as [-> [-> ->]]. reflexivity.
Qed.

Lemma decode_mod (c : Z) :
  int_to_rgb_float (Some (c mod 16777216)%Z) = int_to_rgb_float (Some c).
Proof.
  rewrite (Z.div_mod c 16777216) at 2 by lia.
  rewrite Z.add_comm, (Z.mul_comm 16777216). symmetry. apply decode_shifted.
Qed.

Lemma channel_eq (a b : Z) :
  inject_Z a / 255 == inject_Z b / 255 <-> a = b.
Proof.
  unfold Qeq, Qdiv, Qmult, Qinv, inject_Z. simpl. lia.
Qed.

Lemma near_black_channel (k : Z) :
  Qle_bool (inject_Z k / 255) (5 # 255) = (k <=? 5)%Z.
Proof.
  apply eq_true_iff_eq. rewrite Qle_bool_iff, Z.leb_le.
  unfold Qle, Qdiv, Qmult, Qinv, inject_Z. simpl. lia.
Qed.

Lemma decoded_range (c : option Z) :
  Forall (fun ch => 0 <= ch /\ ch <= 1) (channels (int_to_rgb_float c)).
Proof.
  destruct c as [c|].
  - rewrite decode_bytes. unfold channels.
    repeat constructor; apply channel_range, byte_at_range.
  - simpl. repeat constructor; unfold Qle; simpl; lia.
Qed.

Lemma chosen_not_near_black (c : RGB) : isNearBlack (choose_color c) = false.
Proof.
  rewrite choose_color_isNearBlack.
  destruct (isNearBlack c) eqn:E; [reflexivity|exact E].
Qed.

(** X1: the decoder reads the low 24 bits only: adding any multiple of
    2^24 to the packed integer, or reducing it modulo 2^24, leaves the
    decoded colour unchanged (so a negative integer decodes like its
    two's complement, and an alpha byte is ignored). *)
Theorem decode_reads_low_24_bits :
  forall c k : Z,
    int_to_rgb_float (Some (c + k * 2 ^ 24)%Z) = int_to_rgb_float (Some c) /\
    int_to_rgb_float (Some (c mod 2 ^ 24)%Z) = int_to_rgb_float (Some c).
Proof.
  intros c k. change (2 ^ 24)%Z with 16777216%Z.
  split; [apply decode_shifted|apply decode_mod].
Qed.

(** X2: packing three bytes as 0x00RRGGBB and decoding gives back the
    three bytes, each divided by 255, red first. *)
Theorem decode_of_packed_bytes (r g b : Z) :
  (0 <= r <= 255)%Z -> (0 <= g <= 255)%Z -> (0 <= b <= 255)%Z ->
  int_to_rgb_float (Some (pack_rgb r g b)) =
    (inject_Z r / 255, inject_Z g / 255, inject_Z b / 255).
Proof.
  intros Hr Hg Hb. rewrite decode_bytes.
  destruct (bytes_of_pack r g b Hr Hg Hb) as [-> [-> ->]]. reflexivity.
Qed.

Lemma decode_of_packed_bytes_witness :
  int_to_rgb_float (Some (pack_rgb 204 26 0)) =
    (inject_Z 204 / 255, inject_Z 26 / 255, inject_Z 0 / 255).
Proof.
  apply (decode_of_packed_bytes 204 26 0); lia.
Defined.

(** X3: two packed integers decode to the same colour exactly when they
    agree on their low 24 bits: the decoder loses nothing of them. *)
Theorem decode_injective_on_low_24_bits :
  forall c c' : Z,
    rgb_eq (int_to_rgb_float (Some c)) (int_to_rgb_float (Some c'))
    <-> (c mod 2 ^ 24 = c' mod 2 ^ 24)%Z.
Proof.
  intros c c'. change (2 ^ 24)%Z with 16777216%Z. split.
  - rewrite !decode_bytes. unfold rgb_eq. rewrite !channel_eq.
    intros [E2 [E1 E0]]. rewrite !low_24_bits. congruence.
  - intros E. rewrite <- (decode_mod c), <- (decode_mod c'), E.
    destruct (int_to_rgb_float (Some (c' mod 16777216)%Z)) as [[r g] b].
    unfold rgb_eq. repeat split; reflexivity.
Qed.

(** X4: the colour chosen for a text is never near-black, choosing again
    changes nothing, and the colour a span is drawn with has its channels
    between 0 and 1. *)
Theorem render_color_is_visible :
  (forall c : RGB,
     isNearBlack (choose_color c) = false /\
     choose_color (choose_color c) = choose_color c) /\
  (forall span : Span,
     isNearBlack (render_color span) = false /\
     Forall (fun ch => 0 <= ch /\ ch <= 1) (channels (render_color span))).
Proof.
  split.
  - intros c. split; [apply chosen_not_near_black|].
    rewrite (choose_color_isNearBlack (choose_color c)).
    rewrite chosen_not_near_black. reflexivity.
  - intros span. unfold render_color. split; [apply chosen_not_near_black|].
    rewrite choose_color_isNearBlack.
    destruct (isNearBlack (orig_color span)).
    + repeat constructor; unfold Qle; simpl; lia.
    + apply decoded_range.
Qed.

(** X5: on the packed colour the inversion is a test on bytes: a span is
    drawn white exactly when each of the three low bytes of its colour
    (0 when the span has none) is at most 5, and with its decoded colour
    otherwise. *)
Theorem inversion_is_a_test_on_bytes :
  forall span : Span,
    let c := match span_color span with Some c => c | None => 0%Z end in
    render_color span =
      if (byte_at c 2 <=? 5)%Z && (byte_at c 1 <=? 5)%Z && (byte_at c 0 <=? 5)%Z
      then (1, 1, 1)
      else orig_color span.
Proof.
  intros span c. unfold render_color. rewrite choose_color_isNearBlack.
  unfold orig_color. fold c. rewrite decode_bytes.
  unfold isNearBlack, channels. cbn [forallb].
  rewrite !near_black_channel, andb_true_r, andb_assoc. reflexivity.
Qed.

End CodecMore.

(* ================================================================== *)
(** * Further properties of the font classifier *)
(* ================================================================== *)

Module FontMore.

Import Font FontFacts.
Local Open Scope string_scope.

Lemma lower_ascii_idempotent (c : ascii) :
  lower_ascii (lower_ascii c) = lower_ascii c.
Proof.
  destruct c as [[] [] [] [] [] [] [] []]; reflexivity.
Qed.

Lemma lower_idempotent (s : string) : lower (lower s) = lower s.
Proof.
  induction s as [|c s IH]; simpl; [reflexivity|].
  rewrite lower_ascii_idempotent, IH. reflexivity.
Qed.

(** A pattern found in a name is found in every name around it. *)
Lemma contains_in_longer (pat pre name suf : string) :
  contains pat (lower name) = true ->
  contains pat (lower (pre ++ name ++ suf)) = true.
Proof.
  rewrite !contains_iff. intros [a [b E]].
  exists (lower pre ++ a), (b ++ lower suf).
  rewrite !lower_app, E.
  clear E. induction (lower pre) as [|c p IH]; simpl.
  - induction a as [|c a IH]; simpl.
    + induction pat as [|c pat IH]; simpl; [reflexivity|].
      rewrite IH. reflexivity.
    + rewrite IH. reflexivity.
  - rewrite IH. reflexivity.
Qed.

Lemma slant_in_longer (pre name suf : string) :
  slant_found name = true -> slant_found (pre ++ name ++ suf) = true.
Proof.
  unfold slant_found. rewrite !orb_true_iff.
  intros [Hi|Ho]; [left|right]; apply contains_in_longer; assumption.
Qed.

Lemma map_font_by_flags (name : string) :
  map_font name =
    match contains "bold" (lower name), slant_found name with
    | true, true => builtin_font BoldItalic
    | true, false => builtin_font Bold
    | false, true => builtin_font Italic
    | false, false => builtin_font Regular
    end.
Proof.
  rewrite map_font_cases. unfold slant_found.
  destruct (contains "bold" (lower name));
    destruct (contains "italic" (lower name) || contains "oblique" (lower name));
    reflexivity.
Qed.

(** X6: [map_font] always returns one of the four built-in Times names;
    applied to its own result it returns it unchanged; and it gives the
    same font for a name and for the name in lower case. *)
Theorem map_font_range_and_fixpoints :
  forall name : string,
    In (map_font name) times_fonts /\
    map_font (map_font name) = map_font name /\
    map_font (lower name) = map_font name.
Proof.
  intros name. split; [|split].
  - rewrite map_font_by_flags.
    destruct (contains "bold" (lower name)), (slant_found name); simpl; auto.
  - rewrite (map_font_by_flags name).
    destruct (contains "bold" (lower name)), (slant_found name); reflexivity.
  - unfold map_font. rewrite lower_idempotent. reflexivity.
Qed.

(** X7: characters added before or after a name never remove a style: a
    BoldItalic name stays BoldItalic, a Bold or Italic name keeps its style
    or becomes BoldItalic, and a longer name that is Regular has only
    Regular parts. *)
Theorem map_font_of_longer_name (pre name suf : string) :
  let longer := pre ++ name ++ suf in
  (map_font name = builtin_font BoldItalic ->
   map_font longer = builtin_font BoldItalic) /\
  (map_font name = builtin_font Bold ->
   map_font longer = builtin_font Bold \/
   map_font longer = builtin_font BoldItalic) /\
  (map_font name = builtin_font Italic ->
   map_font longer = builtin_font Italic \/
   map_font longer = builtin_font BoldItalic) /\
  (map_font longer = builtin_font Regular ->
   map_font name = builtin_font Regular).
Proof.
  intros longer. subst longer.
  pose proof (contains_in_longer "bold" pre name suf) as Hb.
  pose proof (slant_in_longer pre name suf) as Hs.
  rewrite (map_font_by_flags name), (map_font_by_flags (pre ++ name ++ suf)).
  destruct (contains "bold" (lower name)), (slant_found name);
    try rewrite (Hb eq_refl); try rewrite (Hs eq_refl);
    destruct (contains "bold" (lower (pre ++ name ++ suf)));
    destruct (slant_found (pre ++ name ++ suf));
    repeat split; intros E; try discriminate E; auto.
Qed.

Lemma map_font_of_longer_name_witness :
  map_font ("ABCDEF+" ++ "Nimbus-Bold" ++ "-Oblique")
    = builtin_font BoldItalic /\
  map_font ("ABCDEF+" ++ "Nimbus-BoldItalic" ++ ",x")
    = builtin_font BoldItalic /\
  map_font ("ABCDEF+" ++ "Nimbus-Italic" ++ "MT")
    = builtin_font Italic /\
  map_font "Roman" = builtin_font Regular.
Proof.
  split; [|split; [|split]].
  - destruct (proj1 (proj2
      (map_font_of_longer_name "ABCDEF+" "Nimbus-Bold" "-Oblique")) eq_refl)
      as [E|E]; [discriminate E|exact E].
  - exact (proj1
      (map_font_of_longer_name "ABCDEF+" "Nimbus-BoldItalic" ",x") eq_refl).
  - destruct (proj1 (proj2 (proj2
      (map_font_of_longer_name "ABCDEF+" "Nimbus-Italic" "MT"))) eq_refl)
      as [E|E]; [exact E|discriminate E].
  - exact (proj2 (proj2 (proj2
      (map_font_of_longer_name "Times New " "Roman" " PS"))) eq_refl).
Defined.

End FontMore.

(* ================================================================== *)
(** * Further properties of the background *)
(* ================================================================== *)

Section BackgroundMore.

Context `{Fitz} `{Canvas} `{Imaging} `{Store}.

Local Open Scope Q_scope.

(** X8: whatever the random sample, the grain value is the floor of the
    sample saturated to the range 0..255; so it fits eight bits and the
    cast to [uint8] never wraps around. *)
Theorem grain_sample_saturates :
  forall x : Q,
    grain_sample x = Z.max 0 (Z.min 255 (Qfloor x)) /\
    (0 <= grain_sample x <= 255)%Z.
Proof.
  intros x.
  assert (E : grain_sample x = Z.max 0 (Z.min 255 (Qfloor x))).
  { unfold grain_sample, clip.
    destruct (Qle_bool x 0) eqn:E0.
    - apply Qle_bool_iff in E0. apply Qfloor_resp_le in E0.
      change (Qfloor 0) with 0%Z in E0. change (int_of_float 0) with 0%Z. lia.
    - destruct (Qle_bool 255 x) eqn:E1.
      + apply Qle_bool_iff in E1. apply Qfloor_resp_le in E1.
        change (Qfloor 255) with 255%Z in E1.
        change (int_of_float 255) with 255%Z. lia.
      + assert (Hlo : 0 <= x).
        { apply Qlt_le_weak, Qnot_le_lt. intros Hle.
          apply Qle_bool_iff in Hle. congruence. }
        assert (Hhi : x <= 255).
        { apply Qlt_le_weak, Qnot_le_lt. intros Hle.
          apply Qle_bool_iff in Hle. congruence. }
        rewrite (int_of_float_floor x Hlo).
        apply Qfloor_resp_le in Hlo. apply Qfloor_resp_le in Hhi.
        change (Qfloor 0) with 0%Z in Hlo.
        change (Qfloor 255) with 255%Z in Hhi. lia. }
  split; [exact E|]. rewrite E. lia.
Qed.

(** X9: when the cover image cannot be resized to the truncated size of a
    page, the page raises before any call is made on it and before the
    random source is used; for the first page of a document the run then
    stops with that one blank page in memory and nothing saved. *)
Theorem unusable_page_size_aborts
    (src : SrcDoc) (bg : Image) (page : Page) (rest : list Page) (rng : Rng) :
  resize bg (int_of_float (page_width page), int_of_float (page_height page))
    = None ->
  stylise_page src bg page rng = (([], Raise ValueError), rng) /\
  (src_pages src = page :: rest ->
   stylise_pdf src bg rng =
     mkRun [mkOutPage (page_width page) (page_height page) []] []
       (Raise ValueError) rng).
Proof.
  intros Hres.
  assert (E : stylise_page src bg page rng = (([], Raise ValueError), rng)).
  { unfold stylise_page, background_phase, synthesize; cbv zeta.
    rewrite Hres. reflexivity. }
  split; [exact E|].
  intros Hpages. unfold stylise_pdf. rewrite Hpages.
  cbn [page_loop]. rewrite E. reflexivity.
Qed.

End BackgroundMore.

Lemma unusable_page_size_aborts_witness :
  @stylise_pdf Sample.fitz Sample.canvas Sample.imaging Sample.store
    (mkSrcDoc [MoreSamples.tiny_page; Sample.page2] (fun _ => None))
    Sample.cover O
  = @mkRun Sample.imaging [mkOutPage 0.5 10 []] [] (Raise ValueError) O.
Proof.
  exact (proj2
    (@unusable_page_size_aborts Sample.fitz Sample.canvas Sample.imaging
       Sample.store (mkSrcDoc [MoreSamples.tiny_page; Sample.page2] (fun _ => None))
       Sample.cover MoreSamples.tiny_page [Sample.page2] O eq_refl) eq_refl).
Defined.

(* ================================================================== *)
(** * Further properties of the image phase *)
(* ================================================================== *)

Section ImageMore.

Context `{Fitz} `{Canvas} `{Imaging}.

(** An image block makes no call, or the one call its handle gives. *)
Lemma image_block_calls (src : SrcDoc) (b : Block) :
  ops_of (image_block src b) = [] \/
  (has_handle b = true /\
   exists xref image,
     blk_type b = Some 1%Z /\ blk_xref b = Some xref /\ xref <> 0%Z /\
     extract_image src xref = Some image /\
     ops_of (image_block src b) = [InsertImage (blk_bbox b) image true]).
Proof.
  unfold image_block, has_handle.
  destruct (blk_type b) as [[|[| |]|]|]; try (left; reflexivity).
  destruct (blk_xref b) as [xref|]; [|left; reflexivity].
  destruct (Z.eqb xref 0) eqn:E0; [left; reflexivity|].
  destruct (extract_image src xref) as [image|] eqn:Ex; [|left; reflexivity].
  unfold emit. destruct (accepts _); [|left; reflexivity].
  right. split; [reflexivity|]. exists xref, image.
  apply Z.eqb_neq in E0. repeat split; try reflexivity; assumption.
Qed.

Lemma image_block_without_handle (src : SrcDoc) (b : Block) :
  has_handle b = false -> image_block src b = ret tt.
Proof.
  unfold image_block, has_handle.
  destruct (blk_type b) as [[|[| |]|]|]; try reflexivity.
  destruct (blk_xref b) as [xref|]; [|reflexivity].
  destruct (Z.eqb xref 0); [reflexivity|discriminate].
Qed.

(** X10: every image the image phase places comes from a block of type 1
    whose handle is present and not zero: it is the raster the source
    document gives for that handle, placed at the block's bounding box with
    [overlay=True]; and no more images are placed than there are such
    blocks. *)
Theorem placed_images_come_from_handles :
  forall (src : SrcDoc) (blocks : list Block),
    Forall (fun op =>
      exists b xref image,
        In b blocks /\ blk_type b = Some 1%Z /\ blk_xref b = Some xref /\
        xref <> 0%Z /\ extract_image src xref = Some image /\
        op = InsertImage (blk_bbox b) image true)
      (ops_of (image_phase src blocks)) /\
    (List.length (ops_of (image_phase src blocks))
     <= List.length (filter has_handle blocks))%nat.
Proof.
  intros src blocks. unfold image_phase.
  induction blocks as [|b t [IHs IHn]].
  - split; [constructor|simpl; lia].
  - cbn [for_each]. rewrite ops_bind.
    assert (Htail :
      Forall (fun op =>
        exists b0 xref image,
          In b0 (b :: t) /\ blk_type b0 = Some 1%Z /\
          blk_xref b0 = Some xref /\ xref <> 0%Z /\
          extract_image src xref = Some image /\
          op = InsertImage (blk_bbox b0) image true)
        (ops_of (for_each (image_block src) t))).
    { revert IHs. apply Forall_impl.
      intros op (b0 & xref & image & Hin & Hrest).
      exists b0, xref, image. split; [right; exact Hin|exact Hrest]. }
    destruct (image_block_calls src b)
      as [E|[Hh (xref & image & Ht & Hx & Hnz & He & E)]]; rewrite E.
    + split.
      * destruct (outcome_of (image_block src b)); [exact Htail|constructor].
      * cbn [filter app]. destruct (outcome_of (image_block src b));
          destruct (has_handle b); simpl; lia.
    + split.
      * constructor.
        -- exists b, xref, image. repeat split; try assumption. left. reflexivity.
        -- destruct (outcome_of (image_block src b));
             [exact Htail|constructor].
      * cbn [filter]. rewrite Hh.
        destruct (outcome_of (image_block src b)); simpl; lia.
Qed.

(** X11: when no block is an image block with a handle (blocks of another
    type, a missing handle, a zero handle), the image phase places nothing
    and never raises, whatever the source document holds. *)
Theorem blocks_without_handles_are_skipped
    (src : SrcDoc) (blocks : list Block) :
  Forall (fun b => has_handle b = false) blocks ->
  image_phase src blocks = ret tt.
Proof.
  unfold image_phase. induction 1 as [|b t Hb _ IH]; [reflexivity|].
  cbn [for_each]. rewrite (image_block_without_handle src b Hb), IH.
  reflexivity.
Qed.

(** X12: when the image phase raises (a handle the source document cannot
    resolve), the page raises too and nothing of the vector and text phases
    is drawn: every call made on the page is the background or a raster
    image. *)
Theorem failed_image_stops_the_page
    (src : SrcDoc) (bg : Image) (page : Page) (rng : Rng) (e : exn) :
  outcome_of (image_phase src (text_blocks page)) = Raise e ->
  let run := fst (stylise_page src bg page rng) in
  (exists e', outcome_of run = Raise e') /\
  Forall (fun op => layer_of op = Background \/ layer_of op = Raster)
    (ops_of run).
Proof.
  intros Hfail run. subst run. unfold stylise_page.
  pose proof (background_phase_cases bg page rng) as Hbg.
  destruct (background_phase bg page rng) as [background rng']. simpl in Hbg.
  cbn [fst]. rewrite !ops_bind, !outcome_bind.
  destruct Hbg as [[stream ->]|[e0 ->]]; cbn [ops_of outcome_of fst snd].
  - rewrite Hfail. cbn [ops_of outcome_of fst snd] in *.
    split; [exists e; reflexivity|].
    constructor; [left; reflexivity|]. rewrite app_nil_r.
    pose proof (image_phase_layer src (text_blocks page)) as Hi.
    revert Hi. apply Forall_impl. intros op Hop. right. exact Hop.
  - split; [exists e0; reflexivity|constructor].
Qed.

End ImageMore.

Lemma blocks_without_handles_are_skipped_witness :
  @image_phase Sample.canvas Sample.document
    [MoreSamples.text_block; MoreSamples.no_handle_block] = ret tt.
Proof.
  apply (@blocks_without_handles_are_skipped Sample.canvas).
  repeat constructor.
Defined.

Lemma failed_image_stops_the_page_witness :
  Forall (fun op => layer_of op = Background \/ layer_of op = Raster)
    (ops_of (fst (@stylise_page Sample.fitz Sample.canvas Sample.imaging
                    Sample.document Sample.cover MoreSamples.lost_image_page O))).
Proof.
  exact (proj2
    (@failed_image_stops_the_page Sample.fitz Sample.canvas Sample.imaging
       Sample.document Sample.cover MoreSamples.lost_image_page O
       ValueError eq_refl)).
Defined.

(* ================================================================== *)
(** * Further properties of the vector phase *)
(* ================================================================== *)

Section VectorMore.

Context `{Fitz} `{Canvas}.

Import ColorFacts.
Local Open Scope Q_scope.

Lemma is_str_true (v : pyval) (s : string) : is_str v s = true -> v = PyStr s.
Proof.
  destruct v; try discriminate. simpl. intros E.
  apply String.eqb_eq in E. congruence.
Qed.

Lemma line_tag_cases (typ : pyval) :
  line_tag typ = true -> typ = PyStr "l" \/ typ = PyStr "L".
Proof.
  unfold line_tag. rewrite orb_true_iff.
  intros [E|E]; apply is_str_true in E; auto.
Qed.

Lemma polyline_tag_cases (typ : pyval) :
  polyline_tag typ = true -> typ = PyStr "qu" \/ typ = PyStr "p".
Proof.
  unfold polyline_tag. rewrite orb_true_iff.
  intros [E|E]; apply is_str_true in E; auto.
Qed.

Lemma bezier_tag_cases (typ : pyval) :
  bezier_tag typ = true ->
  typ = PyStr "c" \/ typ = PyStr "be" \/ typ = PyStr "b".
Proof.
  unfold bezier_tag. rewrite !orb_true_iff.
  intros [[E|E]|E]; apply is_str_true in E; auto.
Qed.

Lemma elements_sequence (v : pyval) (x : pyval) (l : list pyval) :
  elements v = x :: l -> as_sequence v = Some (x :: l).
Proof.
  unfold elements. destruct (as_sequence v); [congruence|discriminate].
Qed.

Lemma py_len_elements (v : pyval) : py_len v = List.length (elements v).
Proof. unfold py_len, elements. destruct (as_sequence v); reflexivity. Qed.

(** What a line item with two points or more does. *)
Lemma draw_line_item (color width : pyval) (item : list pyval)
    (a b : pyval) (more : list pyval) :
  line_tag (item_typ item) = true ->
  elements (item_pts item) = a :: b :: more ->
  draw_item color width item =
    (p1 <- construct (fitz_Point a) ;;
     p2 <- construct (fitz_Point b) ;;
     emit (DrawLine p1 p2 color width)).
Proof.
  intros Htag Hel. apply elements_sequence in Hel.
  unfold draw_item; cbv zeta. unfold line_tag in Htag. rewrite Htag.
  unfold is_sequence, py_len, py_index, construct. rewrite Hel.
  cbn [andb List.length Nat.leb nth_error].
  cbn [bind ret raise app].
  destruct (fitz_Point a) as [p1|]; cbn [bind ret raise app]; [|reflexivity].
  destruct (fitz_Point b) as [p2|]; cbn [bind ret raise app]; [|reflexivity].
  destruct (emit (DrawLine p1 p2 color width)) as [o3 r3]. reflexivity.
Qed.

(** X13: a line item draws one line between its first two points, with
    the colour and the width of the drawing as they are (the width is not
    raised to 0.5 as for a rectangle); points after the second are
    ignored. *)
Theorem line_uses_first_two_points
    (color width : pyval) (item : list pyval)
    (a b : pyval) (more : list pyval) (p1 p2 : Point) :
  line_tag (item_typ item) = true ->
  elements (item_pts item) = a :: b :: more ->
  fitz_Point a = Some p1 -> fitz_Point b = Some p2 ->
  draw_item color width item = emit (DrawLine p1 p2 color width).
Proof.
  intros Htag Hel Ha Hb.
  rewrite (draw_line_item color width item a b more Htag Hel), Ha, Hb.
  cbn [construct bind ret app].
  destruct (emit (DrawLine p1 p2 color width)). reflexivity.
Qed.

(** X14: a line item is not guarded by a [try]: when one of its first two
    points cannot be read as a point, the item raises without drawing and
    the items after it in the drawing are not processed. *)
Theorem line_with_unreadable_point_aborts
    (color width : pyval) (item : list pyval) (rest : list (list pyval))
    (a b : pyval) (more : list pyval) :
  line_tag (item_typ item) = true ->
  elements (item_pts item) = a :: b :: more ->
  fitz_Point a = None \/ fitz_Point b = None ->
  for_each (draw_item color width) (item :: rest) = ([], Raise ValueError).
Proof.
  intros Htag Hel Hbad. cbn [for_each].
  rewrite (draw_line_item color width item a b more Htag Hel).
  destruct (fitz_Point a) as [p1|]; [|reflexivity].
  destruct Hbad as [Ha|Hb]; [discriminate Ha|]. rewrite Hb. reflexivity.
Qed.

(** X15: an item is ignored, drawing nothing and raising nothing, when its
    point set is not a list or tuple (an object of the PDF library, a
    string, [None]), when its tag is none of the eight the program knows,
    and when it is a line with fewer than two points. *)
Theorem ignored_items (color width : pyval) (item : list pyval) :
  (is_sequence (item_pts item) = false ->
   draw_item color width item = ret tt) /\
  (known_tag (item_typ item) = false ->
   draw_item color width item = ret tt) /\
  (line_tag (item_typ item) = true ->
   (List.length (elements (item_pts item)) < 2)%nat ->
   draw_item color width item = ret tt).
Proof.
  split; [|split].
  - intros Hseq. unfold draw_item; cbv zeta. rewrite Hseq.
    rewrite !andb_false_r. reflexivity.
  - unfold known_tag, line_tag, polyline_tag, bezier_tag.
    rewrite !orb_false_iff.
    intros [[[[El EL] Ere] [Equ Ep]] [[Ec Ebe] Eb]].
    unfold draw_item; cbv zeta.
    rewrite El, EL, Ere, Equ, Ep, Ec, Ebe, Eb. reflexivity.
  - intros Htag Hshort. unfold draw_item; cbv zeta.
    rewrite py_len_elements.
    assert (Hlen : (2 <=? List.length (elements (item_pts item)))%nat = false).
    { apply Nat.leb_gt. exact Hshort. }
    rewrite Hlen, andb_false_r.
    destruct (line_tag_cases _ Htag) as [-> | ->]; reflexivity.
Qed.

Lemma points_of_readable (pts : pyval) (ps : list Point) :
  is_sequence pts = true ->
  Forall2 (fun v p => fitz_Point v = Some p) (elements pts) ps ->
  points_of pts = ret ps.
Proof.
  unfold is_sequence, elements, points_of.
  destruct (as_sequence pts) as [l|]; [|discriminate]. intros _ Hall.
  induction Hall as [|v p l ps Hv _ IH]; [reflexivity|].
  cbn [comprehension]. rewrite Hv, IH. reflexivity.
Qed.

Lemma points_of_unreadable (pts : pyval) :
  Exists (fun v => fitz_Point v = None) (elements pts) ->
  ops_of (points_of pts) = [] /\ outcome_of (points_of pts) = Raise ValueError.
Proof.
  unfold elements, points_of.
  destruct (as_sequence pts) as [l|]; [|intros Hex; inversion Hex].
  induction 1 as [v l Hv|v l _ IH].
  - cbn [comprehension]. rewrite Hv. split; reflexivity.
  - cbn [comprehension]. destruct (fitz_Point v) as [p|]; [|split; reflexivity].
    destruct IH as [Ho Hr]. cbn [construct bind ret].
    destruct (comprehension _ l) as [o r]. simpl in Ho, Hr. subst o r.
    split; reflexivity.
Qed.

(** A guarded item that draws through a list of points. *)
Lemma guarded_points (mk : list Point -> DrawOp) (pts : pyval) :
  let m := try_pass (pts_list <- points_of pts ;; emit (mk pts_list)) in
  outcome_of m = Ok tt /\
  (forall ps,
     is_sequence pts = true ->
     Forall2 (fun v p => fitz_Point v = Some p) (elements pts) ps ->
     accepts (mk ps) = true -> ops_of m = [mk ps]) /\
  (Exists (fun v => fitz_Point v = None) (elements pts) -> ops_of m = []).
Proof.
  intros m. subst m. split; [reflexivity|]. rewrite ops_try_pass. split.
  - intros ps Hseq Hall Hacc. rewrite (points_of_readable pts ps Hseq Hall).
    cbn [bind ret]. unfold emit. rewrite Hacc. reflexivity.
  - intros Hex. destruct (points_of_unreadable pts Hex) as [Ho Hr].
    rewrite ops_bind, Ho, Hr. reflexivity.
Qed.

Lemma draw_polyline_item (color width : pyval) (item : list pyval) :
  polyline_tag (item_typ item) = true ->
  is_sequence (item_pts item) = true ->
  draw_item color width item =
    try_pass (pts_list <- points_of (item_pts item) ;;
              emit (DrawPolyline pts_list color width)).
Proof.
  intros Htag Hseq. unfold draw_item; cbv zeta. rewrite Hseq.
  destruct (polyline_tag_cases _ Htag) as [-> | ->]; reflexivity.
Qed.

Lemma draw_bezier_item (color width : pyval) (item : list pyval) :
  bezier_tag (item_typ item) = true ->
  is_sequence (item_pts item) = true ->
  draw_item color width item =
    try_pass (pts_list <- points_of (item_pts item) ;;
              emit (DrawBezier pts_list color width)).
Proof.
  intros Htag Hseq. unfold draw_item; cbv zeta. rewrite Hseq.
  destruct (bezier_tag_cases _ Htag) as [-> | [-> | ->]]; reflexivity.
Qed.

(** X16: a polyline item (tags "qu" and "p") never raises; it draws one
    polyline through all its points in their order when every element of
    its point set reads as a point and the canvas carries out the call, and
    it draws nothing at all as soon as one element does not. *)
Theorem polyline_is_all_or_nothing
    (color width : pyval) (item : list pyval) :
  polyline_tag (item_typ item) = true ->
  is_sequence (item_pts item) = true ->
  outcome_of (draw_item color width item) = Ok tt /\
  (forall ps,
     Forall2 (fun v p => fitz_Point v = Some p) (elements (item_pts item)) ps ->
     accepts (DrawPolyline ps color width) = true ->
     ops_of (draw_item color width item) = [DrawPolyline ps color width]) /\
  (Exists (fun v => fitz_Point v = None) (elements (item_pts item)) ->
   ops_of (draw_item color width item) = []).
Proof.
  intros Htag Hseq. rewrite (draw_polyline_item color width item Htag Hseq).
  destruct (guarded_points (fun ps => DrawPolyline ps color width)
              (item_pts item)) as [Hok [Hall Hbad]].
  split; [exact Hok|]. split; [|exact Hbad].
  intros ps Hps Hacc. exact (Hall ps Hseq Hps Hacc).
Qed.

(** X17: a curve item (tags "c", "be" and "b") behaves the same way: it
    never raises, hands all its points in their order to one
    [draw_bezier] call when every element reads as a point and the canvas
    carries out the call, and draws nothing as soon as one element does
    not or the canvas refuses the call. *)
Theorem bezier_is_all_or_nothing
    (color width : pyval) (item : list pyval) :
  bezier_tag (item_typ item) = true ->
  is_sequence (item_pts item) = true ->
  outcome_of (draw_item color width item) = Ok tt /\
  (forall ps,
     Forall2 (fun v p => fitz_Point v = Some p) (elements (item_pts item)) ps ->
     (accepts (DrawBezier ps color width) = true ->
      ops_of (draw_item color width item) = [DrawBezier ps color width]) /\
     (accepts (DrawBezier ps color width) = false ->
      ops_of (draw_item color width item) = [])) /\
  (Exists (fun v => fitz_Point v = None) (elements (item_pts item)) ->
   ops_of (draw_item color width item) = []).
Proof.
  intros Htag Hseq. rewrite (draw_bezier_item color width item Htag Hseq).
  destruct (guarded_points (fun ps => DrawBezier ps color width)
              (item_pts item)) as [Hok [Hall Hbad]].
  split; [exact Hok|]. split; [|exact Hbad].
  intros ps Hps. split.
  - intros Hacc. exact (Hall ps Hseq Hps Hacc).
  - intros Hacc. rewrite ops_try_pass.
    rewrite (points_of_readable _ ps Hseq Hps). cbn [bind ret].
    unfold emit. rewrite Hacc. reflexivity.
Qed.

End VectorMore.

Lemma line_uses_first_two_points_witness :
  @draw_item Sample.fitz Sample.canvas Sample.red (PyFloat 0.25)
    MoreSamples.long_line_item
  = @emit Sample.canvas
      (DrawLine (mkPoint 1 2) (mkPoint 3 4) Sample.red (PyFloat 0.25)).
Proof.
  exact (@line_uses_first_two_points Sample.fitz Sample.canvas Sample.red
           (PyFloat 0.25) MoreSamples.long_line_item
           (PyList [PyInt 1; PyInt 2]) (PyList [PyInt 3; PyInt 4])
           [PyList [PyInt 5; PyInt 6]] (mkPoint 1 2) (mkPoint 3 4)
           eq_refl eq_refl eq_refl eq_refl).
Defined.

Lemma line_with_unreadable_point_aborts_witness :
  @for_each _ (@draw_item Sample.fitz Sample.canvas Sample.red (PyFloat 1))
    [MoreSamples.broken_line_item; Sample.rect_item]
  = ([], Raise ValueError).
Proof.
  exact (@line_with_unreadable_point_aborts Sample.fitz Sample.canvas
           Sample.red (PyFloat 1) MoreSamples.broken_line_item
           [Sample.rect_item] (PyTuple [PyInt 0; PyInt 0]) (PyStr "oops") []
           eq_refl eq_refl (or_intror eq_refl)).
Defined.

Lemma ignored_items_witness :
  @draw_item Sample.fitz Sample.canvas Sample.red (PyFloat 1)
    MoreSamples.object_item = ret tt /\
  @draw_item Sample.fitz Sample.canvas Sample.red (PyFloat 1)
    MoreSamples.unknown_item = ret tt /\
  @draw_item Sample.fitz Sample.canvas Sample.red (PyFloat 1)
    [PyStr "l"] = ret tt.
Proof.
  split; [|split].
  - exact (proj1 (@ignored_items Sample.fitz Sample.canvas Sample.red
             (PyFloat 1) MoreSamples.object_item) eq_refl).
  - exact (proj1 (proj2 (@ignored_items Sample.fitz Sample.canvas Sample.red
             (PyFloat 1) MoreSamples.unknown_item)) eq_refl).
  - apply (proj2 (proj2 (@ignored_items Sample.fitz Sample.canvas Sample.red
             (PyFloat 1) [PyStr "l"%string]))); [reflexivity|simpl; lia].
Defined.

Lemma polyline_is_all_or_nothing_witness :
  ops_of (@draw_item Sample.fitz Sample.canvas Sample.red (PyFloat 1)
            MoreSamples.polyline_item)
    = [DrawPolyline [mkPoint 0 0; mkPoint 4 0; mkPoint 4 3] Sample.red
         (PyFloat 1)] /\
  ops_of (@draw_item Sample.fitz Sample.canvas Sample.red (PyFloat 1)
            MoreSamples.broken_polyline_item) = [].
Proof.
  split.
  - apply (proj1 (proj2 (@polyline_is_all_or_nothing Sample.fitz Sample.canvas
             Sample.red (PyFloat 1) MoreSamples.polyline_item
             eq_refl eq_refl))); [|reflexivity].
    repeat constructor.
  - apply (proj2 (proj2 (@polyline_is_all_or_nothing Sample.fitz Sample.canvas
             Sample.red (PyFloat 1) MoreSamples.broken_polyline_item
             eq_refl eq_refl))).
    apply Exists_cons_tl. apply Exists_cons_hd. reflexivity.
Defined.

Lemma bezier_is_all_or_nothing_witness :
  ops_of (@draw_item Sample.fitz Sample.canvas Sample.red (PyFloat 1)
            MoreSamples.curve_item)
    = [DrawBezier [mkPoint 0 0; mkPoint 1 2; mkPoint 3 2; mkPoint 4 0]
         Sample.red (PyFloat 1)] /\
  ops_of (@draw_item Sample.fitz MoreSamples.strict_canvas Sample.red
            (PyFloat 1) MoreSamples.curve_item) = [] /\
  ops_of (@draw_item Sample.fitz Sample.canvas Sample.red (PyFloat 1)
            [PyStr "b"; PyList [PyNone]]) = [].
Proof.
  split; [|split].
  - apply (proj1 (proj1 (proj2 (@bezier_is_all_or_nothing Sample.fitz
             Sample.canvas Sample.red (PyFloat 1) MoreSamples.curve_item
             eq_refl eq_refl))
             [mkPoint 0 0; mkPoint 1 2; mkPoint 3 2; mkPoint 4 0]
             ltac:(repeat constructor))).
    reflexivity.
  - apply (proj2 (proj1 (proj2 (@bezier_is_all_or_nothing Sample.fitz
             MoreSamples.strict_canvas Sample.red (PyFloat 1)
             MoreSamples.curve_item eq_refl eq_refl))
             [mkPoint 0 0; mkPoint 1 2; mkPoint 3 2; mkPoint 4 0]
             ltac:(repeat constructor))).
    reflexivity.
  - apply (proj2 (proj2 (@bezier_is_all_or_nothing Sample.fitz Sample.canvas
             Sample.red (PyFloat 1) [PyStr "b"%string; PyList [PyNone]]
             eq_refl eq_refl))).
    apply Exists_cons_hd. reflexivity.
Defined.

(* ================================================================== *)
(** * The stroke of a drawing *)
(* ================================================================== *)

Section StrokeMore.

Context `{Fitz} `{Canvas}.

Import ColorFacts.
Local Open Scope Q_scope.

Lemma Forall_bind_ok {A B} (P : DrawOp -> Prop) (m : M A) (f : A -> M B) :
  Forall P (ops_of m) ->
  (forall a, outcome_of m = Ok a -> Forall P (ops_of (f a))) ->
  Forall P (ops_of (bind m f)).
Proof.
  intros Hm Hf. rewrite ops_bind. apply Forall_app. split; [exact Hm|].
  destruct (outcome_of m) as [a|e] eqn:E; [apply Hf; reflexivity|constructor].
Qed.

Lemma max_half_at_least (width w : pyval) :
  outcome_of (max_half width) = Ok w ->
  exists q, as_number w = Some q /\ 0.5 <= q.
Proof.
  unfold max_half. destruct (as_number width) as [q|] eqn:Hq; [|discriminate].
  simpl. intros E. injection E as <-.
  destruct (Color.Qgtb q 0.5) eqn:Hgt.
  - exists q. split; [exact Hq|]. apply Qlt_le_weak, Qgtb_lt. exact Hgt.
  - exists 0.5. split; [reflexivity|]. apply Qle_refl.
Qed.

Lemma draw_item_stroke (color width : pyval) (item : list pyval) :
  Forall (stroked_by color width) (ops_of (draw_item color width item)).
Proof.
  unfold draw_item; cbv zeta.
  repeat match goal with
         | |- context [if ?c then _ else _] => destruct c
         end;
    rewrite ?ops_try_pass;
    try apply Forall_ret.
  - repeat (apply Forall_bind;
            [first [apply py_index_no_ops|apply Forall_construct]|intro]).
    apply Forall_emit. split; reflexivity.
  - apply Forall_bind; [apply Forall_construct|intros rect].
    apply Forall_bind_ok; [apply max_half_no_ops|intros w Hw].
    apply Forall_emit. split; [reflexivity|]. split; [reflexivity|].
    exact (max_half_at_least width w Hw).
  - apply Forall_bind; [apply points_of_no_ops|intros ps].
    apply Forall_emit. split; reflexivity.
  - apply Forall_bind; [apply points_of_no_ops|intros ps].
    apply Forall_emit. split; reflexivity.
Qed.

(** X18: the resolved colour of a drawing is always a tuple, and every
    call a drawing makes carries that one colour; lines, polylines and
    curves carry the width of the drawing as it is, and a rectangle is
    unfilled with a width that is a number not below 0.5. *)
Theorem drawing_keeps_its_stroke :
  forall d : Drawing,
    (exists l, color_of d = PyTuple l) /\
    Forall (stroked_by (color_of d) (width_of d)) (ops_of (draw_drawing d)).
Proof.
  intros d. split.
  - unfold color_of, resolve_color.
    destruct (get_or_none (d_color d)); eexists; reflexivity.
  - unfold draw_drawing. apply Forall_for_each. apply draw_item_stroke.
Qed.

End StrokeMore.

(* ================================================================== *)
(** * Further properties of the text phase *)
(* ================================================================== *)

Section TextMore.

Context `{Canvas}.

Import ColorFacts.
Local Open Scope Q_scope.

Lemma map_font_in_times (name : string) : In (Font.map_font name) times_fonts.
Proof.
  rewrite FontMore.map_font_by_flags.
  destruct (Font.contains "bold" (Font.lower name)), (slant_found name);
    simpl; auto.
Qed.

Lemma draw_span_styled (span : Span) :
  Forall styled_text_call (ops_of (draw_span span)).
Proof.
  unfold draw_span; cbv zeta.
  destruct (nth_error (matrix_of span) 1) as [m1|]; [|constructor].
  destruct (Color.Qgtb (Qabs m1) 1e-3); apply Forall_emit; simpl.
  - split; [apply map_font_in_times|].
    split; [apply CodecMore.chosen_not_near_black|].
    split; [|reflexivity].
    destruct (Color.Qgtb m1 0); [left|right]; reflexivity.
  - split; [apply map_font_in_times|apply CodecMore.chosen_not_near_black].
Qed.

(** X19: every call of the text phase is a text call in one of the four
    built-in Times fonts and in a colour that is not near-black; a textbox
    is turned by 90 or -90 degrees and left-aligned.  No other angle, font
    or alignment is ever used. *)
Theorem text_calls_are_styled :
  forall blocks : list Block,
    Forall styled_text_call (ops_of (text_phase blocks)).
Proof.
  intros blocks. unfold text_phase.
  apply Forall_for_each. intros blk. apply Forall_for_each. intros line.
  apply Forall_for_each. apply draw_span_styled.
Qed.

(** A loop whose turns all end normally: its observed calls are those of
    its turns, one after the other. *)
Lemma for_each_traced {A C} (h : A -> M unit) (obs : DrawOp -> C)
    (labs : A -> list C) (l : list A) :
  Forall (fun a => outcome_of (h a) = Ok tt /\ map obs (ops_of (h a)) = labs a)
    l ->
  outcome_of (for_each h l) = Ok tt /\
  map obs (ops_of (for_each h l)) = flat_map labs l.
Proof.
  induction 1 as [|a t [Ha La] _ [IHo IHl]]; [split; reflexivity|].
  rewrite (for_each_cons h a t Ha). cbn [outcome_of ops_of fst snd flat_map].
  split; [exact IHo|]. rewrite map_app, La. f_equal. exact IHl.
Qed.

Lemma flat_map_nested {A B C} (g : A -> list B) (k : B -> list C)
    (l : list A) :
  flat_map (fun x => flat_map k (g x)) l = flat_map k (flat_map g l).
Proof.
  induction l as [|x t IH]; [reflexivity|].
  simpl. rewrite flat_map_app, IH. reflexivity.
Qed.

Lemma flat_map_single {A B} (f : A -> B) (l : list A) :
  flat_map (fun x => [f x]) l = map f l.
Proof.
  induction l as [|x t IH]; [reflexivity|]. simpl. rewrite IH. reflexivity.
Qed.

Lemma labels_of_spans {C} (lab : Span -> C) (blocks : list Block) :
  map lab (all_spans blocks) =
    flat_map (fun blk =>
      flat_map (fun line =>
        flat_map (fun span => [lab span]) (get_list (line_spans line)))
        (get_list (blk_lines blk)))
      blocks.
Proof.
  rewrite <- flat_map_single. unfold all_spans.
  rewrite <- flat_map_nested. apply flat_map_ext. intros blk.
  rewrite <- flat_map_nested. reflexivity.
Qed.

Lemma draw_span_one_call (span : Span) :
  (forall op, accepts op = true) -> has_shear_entry span ->
  outcome_of (draw_span span) = Ok tt /\
  map text_of (ops_of (draw_span span)) = [Some (span_text span)].
Proof.
  intros Hacc Hm. unfold has_shear_entry in Hm. unfold draw_span; cbv zeta.
  destruct (nth_error (matrix_of span) 1) as [m1|] eqn:E.
  - destruct (Color.Qgtb (Qabs m1) 1e-3); unfold emit; rewrite Hacc;
      split; reflexivity.
  - apply nth_error_None in E. lia.
Qed.

(** X20: on a canvas that carries out every call, and when every span has
    a matrix entry of index 1 (or no matrix), the text phase ends normally
    and makes exactly one call for each span, in the order of the blocks,
    lines and spans, each with the text of its span unchanged. *)
Theorem text_phase_one_call_per_span (blocks : list Block) :
  (forall op, accepts op = true) ->
  Forall has_shear_entry (all_spans blocks) ->
  outcome_of (text_phase blocks) = Ok tt /\
  map text_of (ops_of (text_phase blocks))
    = map (fun span => Some (span_text span)) (all_spans blocks).
Proof.
  intros Hacc Hall. rewrite labels_of_spans.
  unfold all_spans in Hall. unfold text_phase.
  apply for_each_traced.
  apply Forall_flat_map in Hall. revert Hall. apply Forall_impl.
  intros blk Hblk. apply for_each_traced.
  apply Forall_flat_map in Hblk. revert Hblk. apply Forall_impl.
  intros line Hline.
  apply (for_each_traced draw_span text_of
           (fun span => [Some (span_text span)])).
  revert Hline. apply Forall_impl.
  intros span Hspan. exact (draw_span_one_call span Hacc Hspan).
Qed.

(** X21: a span whose matrix has fewer than two entries raises
    [IndexError] before any call is made for it, and the spans after it are
    not drawn. *)
Theorem short_matrix_raises (span : Span) (rest : list Span) :
  (List.length (matrix_of span) < 2)%nat ->
  for_each draw_span (span :: rest) = ([], Raise IndexError).
Proof.
  intros Hshort. cbn [for_each]. unfold draw_span; cbv zeta.
  assert (E : nth_error (matrix_of span) 1 = None).
  { apply nth_error_None. lia. }
  rewrite E. reflexivity.
Qed.

End TextMore.

Lemma text_phase_one_call_per_span_witness :
  map text_of (ops_of (@text_phase Sample.canvas [MoreSamples.text_block]))
    = [Some "Hello"%string; Some "Side"%string].
Proof.
  refine (proj2 (@text_phase_one_call_per_span Sample.canvas
                   [MoreSamples.text_block] (fun _ => eq_refl) _)).
  repeat constructor.
Defined.

Lemma short_matrix_raises_witness :
  @for_each _ (@draw_span Sample.canvas)
    [MoreSamples.short_matrix_span; Sample.horizontal_span]
  = ([], Raise IndexError).
Proof.
  apply (@short_matrix_raises Sample.canvas). simpl. lia.
Defined.

(* ================================================================== *)
(** * Further properties of the output document *)
(* ================================================================== *)

Section DocumentMore.

Context `{Fitz} `{Canvas} `{Imaging}.

Lemma sorted_same_rank (r : nat) (l : list DrawOp) :
  Forall (fun op => rank_of op = r) l -> layers_sorted l.
Proof.
  induction 1 as [|a t Ha Ht IH]; constructor; [exact IH|].
  revert Ht. apply Forall_impl. intros b Hb. lia.
Qed.

Lemma sorted_app (l1 l2 : list DrawOp) (r : nat) :
  layers_sorted l1 -> layers_sorted l2 ->
  Forall (fun op => (rank_of op <= r)%nat) l1 ->
  Forall (fun op => (r <= rank_of op)%nat) l2 ->
  layers_sorted (l1 ++ l2).
Proof.
  intros S1 S2 Hlow Hhigh. induction S1 as [|a t St IH Ha]; [exact S2|].
  inversion Hlow as [|? ? Hra Hrt]; subst.
  simpl. constructor; [exact (IH Hrt)|].
  apply Forall_app. split; [exact Ha|].
  revert Hhigh. apply Forall_impl. intros b Hb. lia.
Qed.

Lemma on_layer_rank (l : Layer) (ops : list DrawOp) :
  Forall (on_layer l) ops -> Forall (fun op => rank_of op = layer_rank l) ops.
Proof.
  apply Forall_impl. intros op Hop. unfold rank_of. rewrite Hop. reflexivity.
Qed.

(** The calls of the four phases, cut short where a phase raised, are in
    the order of the layers. *)
Lemma sorted_stack (b i v t : list DrawOp) :
  Forall (on_layer Background) b -> Forall (on_layer Raster) i ->
  Forall (on_layer Vector) v -> Forall (on_layer Text) t ->
  layers_sorted (b ++ i ++ v ++ t).
Proof.
  intros Hb Hi Hv Ht.
  apply on_layer_rank in Hb, Hi, Hv, Ht. cbn [layer_rank] in *.
  assert (Svt : layers_sorted (v ++ t) /\
                Forall (fun op => (2 <= rank_of op)%nat) (v ++ t)).
  { split.
    - apply (sorted_app v t 2);
        [exact (sorted_same_rank 2 v Hv)|exact (sorted_same_rank 3 t Ht)| |].
      + revert Hv. apply Forall_impl. intros op E. lia.
      + revert Ht. apply Forall_impl. intros op E. lia.
    - apply Forall_app. split.
      + revert Hv. apply Forall_impl. intros op E. lia.
      + revert Ht. apply Forall_impl. intros op E. lia. }
  destruct Svt as [Svt Rvt].
  assert (Sivt : layers_sorted (i ++ v ++ t) /\
                 Forall (fun op => (1 <= rank_of op)%nat) (i ++ v ++ t)).
  { split.
    - apply (sorted_app i (v ++ t) 1);
        [exact (sorted_same_rank 1 i Hi)|exact Svt| |].
      + revert Hi. apply Forall_impl. intros op E. lia.
      + revert Rvt. apply Forall_impl. intros op E. lia.
    - apply Forall_app. split.
      + revert Hi. apply Forall_impl. intros op E. lia.
      + revert Rvt. apply Forall_impl. intros op E. lia. }
  destruct Sivt as [Sivt Rivt].
  apply (sorted_app b (i ++ v ++ t) 0);
    [exact (sorted_same_rank 0 b Hb)|exact Sivt| |].
  - revert Hb. apply Forall_impl. intros op E. lia.
  - revert Rivt. apply Forall_impl. intros op E. lia.
Qed.

Lemma stylise_page_sorted (src : SrcDoc) (bg : Image) (page : Page)
    (rng : Rng) :
  layers_sorted (ops_of (fst (stylise_page src bg page rng))).
Proof.
  unfold stylise_page.
  pose proof (background_phase_cases bg page rng) as Hbg.
  destruct (background_phase bg page rng) as [background rng']. simpl in Hbg.
  pose proof (image_phase_layer src (text_blocks page)) as Hi.
  pose proof (vector_phase_layer (drawing_items page)) as Hv.
  pose proof (text_phase_layer (text_blocks page)) as Ht.
  cbn [fst]. rewrite !ops_bind.
  assert (Hb : Forall (on_layer Background) (ops_of background)).
  { destruct Hbg as [[stream ->]|[e ->]]; repeat constructor. }
  assert (Hnil : forall l, Forall (on_layer l) []) by (intros; constructor).
  destruct (outcome_of background);
    [|apply (sorted_stack (ops_of background) [] [] []); auto].
  destruct (outcome_of (image_phase src (text_blocks page)));
    [|apply (sorted_stack (ops_of background)
               (ops_of (image_phase src (text_blocks page))) [] []); auto].
  destruct (outcome_of (vector_phase (drawing_items page)));
    [|apply (sorted_stack (ops_of background)
               (ops_of (image_phase src (text_blocks page)))
               (ops_of (vector_phase (drawing_items page))) []); auto].
  apply sorted_stack; auto.
Qed.

(** The pages the loop adds: one finished page for each source page, or
    finished pages up to the page that raised. *)
Lemma page_loop_pages (src : SrcDoc) (bg : Image) (todo : list Page) :
  forall (dst0 d : list OutPage) (rng rng' : Rng) (r : result unit),
    page_loop src bg todo dst0 rng = (d, r, rng') ->
    exists outs,
      d = dst0 ++ outs /\
      match r with
      | Ok _ => Forall2 (page_run src bg (Ok tt)) outs todo
      | Raise e =>
          exists done failing rest out_done out_fail,
            todo = done ++ failing :: rest /\
            outs = out_done ++ [out_fail] /\
            Forall2 (page_run src bg (Ok tt)) out_done done /\
            page_run src bg (Raise e) out_fail failing
      end.
Proof.
  induction todo as [|page rest IH]; intros dst0 d rng rng' r Hloop.
  - simpl in Hloop. injection Hloop as <- <- <-.
    exists []. rewrite app_nil_r. split; [reflexivity|constructor].
  - simpl in Hloop.
    destruct (stylise_page src bg page rng) as [[ops [[]|e]] rng1] eqn:Hpage.
    + destruct (IH _ _ _ _ _ Hloop) as [outs [Hd Hr]].
      assert (Hthis : page_run src bg (Ok tt)
                        (mkOutPage (page_width page) (page_height page) ops)
                        page).
      { split; [reflexivity|]. exists rng. rewrite Hpage. reflexivity. }
      exists (mkOutPage (page_width page) (page_height page) ops :: outs).
      split; [rewrite Hd, <- app_assoc; reflexivity|].
      destruct r as [[]|e].
      * constructor; assumption.
      * destruct Hr as (done & failing & rest' & od & ofl & Ht & Ho & Hdn & Hf).
        exists (page :: done), failing, rest',
          (mkOutPage (page_width page) (page_height page) ops :: od), ofl.
        subst. repeat split; try reflexivity; try apply Hf.
        constructor; assumption.
    + injection Hloop as <- <- <-.
      exists [mkOutPage (page_width page) (page_height page) ops].
      split; [reflexivity|].
      exists [], page, rest, [],
        (mkOutPage (page_width page) (page_height page) ops).
      repeat split; try reflexivity; try constructor.
      exists rng. rewrite Hpage. reflexivity.
Qed.

Context `{Store}.

(** Every output page holds the calls of a turn of the page loop. *)
Lemma dst_pages_are_runs (src : SrcDoc) (bg : Image) (rng : Rng) :
  Forall (fun out => exists page rng0,
            out_ops out = ops_of (fst (stylise_page src bg page rng0)))
    (dst (stylise_pdf src bg rng)).
Proof.
  unfold stylise_pdf.
  destruct (page_loop src bg (src_pages src) [] rng) as [[d r] rng'] eqn:E.
  destruct (page_loop_pages _ _ _ _ _ _ _ _ E) as [outs [Hd Hr]].
  simpl in Hd. subst d.
  assert (Hrun : forall r0 l1 l2, Forall2 (page_run src bg r0) l1 l2 ->
            Forall (fun out => exists page rng0,
              out_ops out = ops_of (fst (stylise_page src bg page rng0))) l1).
  { intros r0 l1 l2 HF.
    induction HF as [|out page l1 l2 [_ [rng0 Hp]] _ IH]; constructor.
    - exists page, rng0. rewrite Hp. reflexivity.
    - exact IH. }
  destruct r as [[]|e].
  - destruct (save outs); cbn [dst]; exact (Hrun _ _ _ Hr).
  - cbn [dst].
    destruct Hr as (done & failing & rest & od & ofl & _ & -> & Hdn & Hf).
    apply Forall_app. split; [exact (Hrun _ _ _ Hdn)|].
    constructor; [|constructor].
    destruct Hf as [_ [rng0 Hp]]. exists failing, rng0. rewrite Hp. reflexivity.
Qed.

(** X22: on every page of the output document, of a run that ends
    normally as of one that raises, no call is followed by a call of a
    lower layer: background, raster images, vector drawings and text come
    in this order on each page. *)
Theorem every_output_page_is_layered :
  forall (src : SrcDoc) (bg : Image) (rng : Rng),
    Forall (fun out => layers_sorted (out_ops out))
      (dst (stylise_pdf src bg rng)).
Proof.
  intros src bg rng. pose proof (dst_pages_are_runs src bg rng) as Hruns.
  revert Hruns. apply Forall_impl. intros out (page & rng0 & ->).
  apply stylise_page_sorted.
Qed.

(** X23: after a run that ends normally the output pages match the source
    pages one by one, in order: each output page has the size of its source
    page and holds exactly the calls of the page loop on that source page,
    which ended normally. *)
Theorem completed_run_pages :
  forall (src : SrcDoc) (bg : Image) (rng : Rng),
    let run := stylise_pdf src bg rng in
    match outcome run with
    | Ok _ => Forall2 (page_run src bg (Ok tt)) (dst run) (src_pages src)
    | Raise _ => saved run = []
    end.
Proof.
  intros src bg rng run. subst run. unfold stylise_pdf.
  destruct (page_loop src bg (src_pages src) [] rng) as [[d r] rng'] eqn:E.
  destruct (page_loop_pages _ _ _ _ _ _ _ _ E) as [outs [Hd Hr]].
  simpl in Hd. subst d.
  destruct r as [[]|e]; [|reflexivity].
  destruct (save outs); cbn [dst outcome saved]; [exact Hr|reflexivity].
Qed.

(** X24: a run that raises has saved nothing, and it raises either at a
    page or at the save.  In the first case it raises the exception of the
    first page that raises: the pages before it are finished, that page is
    the last page of the output document in memory, with the calls it made
    before raising, and no page is created for the source pages after it.
    In the second case every source page has its finished output page, and
    the exception is the [ValueError] of a document without pages or the
    one the store raised. *)
Theorem failed_run_fails_at_a_page_or_at_the_save
    (src : SrcDoc) (bg : Image) (rng : Rng) (e : exn) :
  outcome (stylise_pdf src bg rng) = Raise e ->
  saved (stylise_pdf src bg rng) = [] /\
  ((exists done failing rest out_done out_fail,
      src_pages src = done ++ failing :: rest /\
      dst (stylise_pdf src bg rng) = out_done ++ [out_fail] /\
      Forall2 (page_run src bg (Ok tt)) out_done done /\
      page_run src bg (Raise e) out_fail failing)
   \/
   (Forall2 (page_run src bg (Ok tt)) (dst (stylise_pdf src bg rng))
      (src_pages src) /\
    ((src_pages src = [] /\ e = ValueError) \/
     save_error (dst (stylise_pdf src bg rng)) = Some e))).
Proof.
  unfold stylise_pdf.
  destruct (page_loop src bg (src_pages src) [] rng) as [[d r] rng'] eqn:E.
  destruct (page_loop_pages _ _ _ _ _ _ _ _ E) as [outs [Hd Hr]].
  simpl in Hd. subst d.
  destruct r as [[]|e'].
  - unfold save. destruct outs as [|o outs'].
    + cbn [dst outcome saved]. intros He. injection He as <-.
      split; [reflexivity|]. right. split; [exact Hr|]. left.
      inversion Hr. split; reflexivity.
    + destruct (save_error (o :: outs')) as [e1|] eqn:Hs;
        cbn [dst outcome saved]; [|discriminate].
      intros He. injection He as <-.
      split; [reflexivity|]. right. split; [exact Hr|]. right. exact Hs.
  - cbn [dst outcome saved]. intros He. injection He as <-.
    split; [reflexivity|]. left.
    destruct Hr as (done & failing & rest & od & ofl & Ht & Ho & Hdn & Hf).
    exists done, failing, rest, od, ofl. repeat split; try assumption; apply Hf.
Qed.

End DocumentMore.

(** A document whose second page holds an image the source cannot give:
    the run raises at that page; and a document whose file cannot be
    written: the run raises at the save. *)
Lemma failed_run_fails_at_a_page_or_at_the_save_witness :
  (exists done failing rest out_done out_fail,
     src_pages MoreSamples.lost_image_document = done ++ failing :: rest /\
     dst (@stylise_pdf Sample.fitz Sample.canvas Sample.imaging Sample.store
            MoreSamples.lost_image_document Sample.cover O)
       = out_done ++ [out_fail] /\
     Forall2 (@page_run Sample.fitz Sample.canvas Sample.imaging
                MoreSamples.lost_image_document Sample.cover (Ok tt))
       out_done done /\
     @page_run Sample.fitz Sample.canvas Sample.imaging
       MoreSamples.lost_image_document Sample.cover (Raise ValueError)
       out_fail failing) /\
  saved (@stylise_pdf Sample.fitz Sample.canvas Sample.imaging
           MoreSamples.full_disk Sample.document Sample.cover O) = [].
Proof.
  split.
  - destruct (proj2 (@failed_run_fails_at_a_page_or_at_the_save Sample.fitz
                Sample.canvas Sample.imaging Sample.store
                MoreSamples.lost_image_document Sample.cover O ValueError
                eq_refl)) as [Hpage|[Hall _]].
    + exact Hpage.
    + apply Forall2_length in Hall. vm_compute in Hall. discriminate Hall.
  - exact (proj1 (@failed_run_fails_at_a_page_or_at_the_save Sample.fitz
             Sample.canvas Sample.imaging MoreSamples.full_disk
             Sample.document Sample.cover O OSError eq_refl)).
Defined.
